(** * be-matatu: the card rules engine and the move handler

    A shallow embedding of [rules.js] (the move legality and penalty
    engine) and of [src/websocket/handlers/handleMove.ts] (the handler
    that applies one player's batch of draw and play actions to the
    stored game state), with the properties of the two that the
    specification states.

    JavaScript values are modelled as follows.  A card [{v, s}] is a
    record of an integer and a string; [===] on numbers is [Z.eqb], on
    strings [String.eqb].  A value that may be [null] is an [option].
    Truthiness of a string-or-null is [truthy]: [null] and the empty
    string are falsy.  The [players] object is an association list in
    key insertion order, because [Object.keys] is observed; the
    [gameStates] map is a [gmap].  The game state object is shared
    between the handler and the store, so every mutation the handler
    makes is a mutation of the stored state. *)

From Stdlib Require Import ZArith List Bool Lia Permutation.
From stdpp Require Import base option list strings gmap pretty.
Import ListNotations.

Local Open Scope Z_scope.

(** ** Cards *)

Record Card : Type := mkCard { v : Z; s : string }.

Definition card_eqb (a b : Card) : bool :=
  (v a =? v b) && String.eqb (s a) (s b).

(** [x] of type string-or-null used as a condition. *)
Definition truthy (x : option string) : bool :=
  match x with
  | Some t => negb (String.eqb t "")
  | None => false
  end.

(** [Array.prototype.includes] on strings and on numbers. *)
Definition includes_str (l : list string) (x : string) : bool :=
  existsb (String.eqb x) l.

Definition includes_num (l : list Z) (x : Z) : bool :=
  existsb (Z.eqb x) l.

(** ** rules.js *)

Module Rules.

(** *** Constants *)

Definition HEARTS := "H".
Definition DIAMONDS := "D".
Definition SPADES := "S".
Definition CLUBS := "C".
Definition RED_JOKER := "R".
Definition BLACK_JOKER := "B".

Definition TWO := 2.
Definition THREE := 3.
Definition EIGHT := 8.
Definition JACK := 11.
Definition ACE := 15.

Definition SUIT_COLORS_RED := [HEARTS; DIAMONDS].
Definition SUIT_COLORS_BLACK := [SPADES; CLUBS].

Definition PENALTY_VALUES := [TWO; THREE; 50].
Definition JOKERS := [RED_JOKER; BLACK_JOKER].
Definition SKIP_VALUES := [EIGHT; JACK].

Definition JOKER_PENALTY_VALUE := 5.

Definition MASTER_CARD : Card := mkCard ACE SPADES.

Inductive NextActionType : Type :=
| INVALID_MOVE
| PLAY_CARD
| CHOOSE_SUIT
| APPLY_PENALTY
| SKIP_TURN
| END_TURN
| REDUCE_PENALTY
| TRANSFER_PENALTY.

(** *** Card type checkers *)

Definition isJoker (card : Card) : bool := includes_str JOKERS (s card).

Definition isMasterCard (card : Card) : bool :=
  (v card =? v MASTER_CARD) && String.eqb (s card) (s MASTER_CARD).

Definition isAce (card : Card) : bool := v card =? ACE.

Definition isPenaltyCard (card : Card) : bool :=
  includes_num PENALTY_VALUES (v card) || isJoker card.

(** [selectedSuit ?? ...] tests for null only, so an empty selected suit
    is a target suit here. *)
Definition isValidJokerMove (card prevCard : Card)
    (selectedSuit : option string) : bool :=
  if negb (isJoker card) && negb (isJoker prevCard) then false
  else
    let jokerCard := if isJoker card then card else prevCard in
    let isRedJoker := String.eqb (s jokerCard) RED_JOKER in
    let isBlackJoker := String.eqb (s jokerCard) BLACK_JOKER in
    let targetSuit :=
      match selectedSuit with
      | Some t => t
      | None => if isJoker card then s prevCard else s card
      end in
    if isRedJoker then includes_str SUIT_COLORS_RED targetSuit
    else if isBlackJoker then includes_str SUIT_COLORS_BLACK targetSuit
    else false.

Definition isBasicMatch (card prevCard : Card)
    (selectedSuit : option string) : bool :=
  match selectedSuit with
  | Some t =>
      if truthy selectedSuit then String.eqb (s card) t
      else
        (v card =? v prevCard) || String.eqb (s card) (s prevCard)
        || isValidJokerMove card prevCard selectedSuit
  | None =>
      (v card =? v prevCard) || String.eqb (s card) (s prevCard)
      || isValidJokerMove card prevCard selectedSuit
  end.

(** *** Card effects *)

(** The object [getCardEffectAction] returns; a key the object does not
    have is [None]. *)
Record CardEffect : Type := mkCardEffect {
  ce_type : NextActionType;
  ce_allowSuitChoice : option bool;
  ce_penaltyCards : option Z;
  ce_skipTurns : option Z;
  ce_message : string
}.

Definition getCardEffectAction (card : Card) (isPenaltyActive : bool)
    : CardEffect :=
  if isJoker card then
    mkCardEffect CHOOSE_SUIT (Some true) (Some JOKER_PENALTY_VALUE) None
      "Choose a suit for the joker"
  else if isMasterCard card && isPenaltyActive then
    mkCardEffect END_TURN None None None "Master card cancels all penalties"
  else if isAce card && negb isPenaltyActive then
    mkCardEffect CHOOSE_SUIT (Some true) None None "Choose a suit for the ace"
  else if v card =? TWO then
    mkCardEffect APPLY_PENALTY None (Some 2) None "Next player draws 2 cards"
  else if v card =? THREE then
    mkCardEffect APPLY_PENALTY None (Some 3) None "Next player draws 3 cards"
  else if (v card =? EIGHT) || (v card =? JACK) then
    mkCardEffect SKIP_TURN None None (Some 1) "Next player skips their turn"
  else if v card =? 50 then
    mkCardEffect APPLY_PENALTY None (Some JOKER_PENALTY_VALUE) None
      "Next player draws 5 cards"
  else
    mkCardEffect END_TURN None None None "Turn ends normally".

(** *** Penalty calculation *)

Definition getCardPenaltyValue (card : Card) : Z :=
  if isJoker card then JOKER_PENALTY_VALUE else v card.

(** [selectedSuit || prevCard.s], the [referenceSuit] of
    [calculatePenaltyAction]. *)
Definition referenceSuitOf (selectedSuit : option string) (prevCard : Card)
    : string :=
  match selectedSuit with
  | Some t => if truthy selectedSuit then t else s prevCard
  | None => s prevCard
  end.

(** The object [calculatePenaltyAction] returns. *)
Record PenaltyAction : Type := mkPenaltyAction {
  pa_type : NextActionType;
  pa_nextPlayerPenaltyCount : Z;
  pa_currentPenaltyCount : Z;
  pa_allowSuitChoice : option bool;
  pa_penaltyCards : option Z;
  pa_skipTurns : option Z;
  pa_drawCards : option Z;
  pa_message : string
}.

Definition calculatePenaltyAction (playedCard prevCard : Card)
    (currentCount : Z) (selectedSuit : option string) : PenaltyAction :=
  let referenceSuit := referenceSuitOf selectedSuit prevCard in
  let prevPenaltyValue := getCardPenaltyValue prevCard in
  let playedPenaltyValue := getCardPenaltyValue playedCard in
  let hasSameValue :=
    isPenaltyCard prevCard && (prevPenaltyValue =? playedPenaltyValue) in
  let hasSameSuit :=
    isPenaltyCard prevCard && String.eqb referenceSuit (s playedCard) in
  let isPrevCardStronger :=
    isPenaltyCard prevCard && (prevPenaltyValue >? playedPenaltyValue) in
  let isPrevCardWeaker :=
    isPenaltyCard prevCard && (prevPenaltyValue <? playedPenaltyValue) in
  let hasColorMatch := isValidJokerMove playedCard prevCard selectedSuit in
  if hasSameValue then
    mkPenaltyAction TRANSFER_PENALTY playedPenaltyValue 0
      None None None None
      ("Penalty transferred to next player (" +:+ pretty playedPenaltyValue
         +:+ " cards)")
  else if hasSameSuit && isPrevCardWeaker then
    mkPenaltyAction TRANSFER_PENALTY playedPenaltyValue 0
      None None None None
      ("Same suit weaker card - penalty transferred ("
         +:+ pretty playedPenaltyValue +:+ " cards)")
  else if hasSameSuit && isPrevCardStronger then
    let reduction := Z.min currentCount playedPenaltyValue in
    let remainingPenalty := Z.max (currentCount - playedPenaltyValue) 0 in
    mkPenaltyAction REDUCE_PENALTY 0 remainingPenalty
      None None None (Some remainingPenalty)
      ("Penalty reduced by " +:+ pretty reduction +:+ ", remaining: "
         +:+ pretty remainingPenalty +:+ " cards")
  else if hasColorMatch && isPrevCardWeaker then
    mkPenaltyAction TRANSFER_PENALTY (currentCount + playedPenaltyValue) 0
      None None None None
      ("Color match weaker - penalty increased to "
         +:+ pretty (currentCount + playedPenaltyValue) +:+ " cards")
  else if hasColorMatch && isPrevCardStronger then
    let remainingPenalty := Z.max (currentCount - playedPenaltyValue) 0 in
    mkPenaltyAction REDUCE_PENALTY 0 remainingPenalty
      None None None (Some remainingPenalty)
      ("Color match stronger - penalty reduced, draw "
         +:+ pretty remainingPenalty +:+ " cards")
  else
    (* getCardEffectAction(playedCard): isPenaltyActive is undefined *)
    let cardEffect := getCardEffectAction playedCard false in
    mkPenaltyAction (ce_type cardEffect)
      (currentCount + default 0 (ce_penaltyCards cardEffect)) 0
      (ce_allowSuitChoice cardEffect) (ce_penaltyCards cardEffect)
      (ce_skipTurns cardEffect) None (ce_message cardEffect).

(** *** Move validation *)

(** The object [getNextAction] returns; a key the object does not have
    is [None]. *)
Record NextAction : Type := mkNextAction {
  valid : bool;
  type : NextActionType;
  nextPlayerPenaltyCount : Z;
  currentPenaltyCount : Z;
  allowSuitChoice : option bool;
  penaltyCards : option Z;
  skipTurns : option Z;
  drawCards : option Z;
  message : string
}.

(** [{valid: true, nextPlayerPenaltyCount, currentPenaltyCount, message,
    ...cardEffect}]: the keys of the card effect are spread last, so its
    type and message are the result's. *)
Definition spreadEffect (next current : Z) (cardEffect : CardEffect)
    : NextAction :=
  mkNextAction true (ce_type cardEffect) next current
    (ce_allowSuitChoice cardEffect) (ce_penaltyCards cardEffect)
    (ce_skipTurns cardEffect) None (ce_message cardEffect).

(** [{valid: true, ...penaltyAction}]. *)
Definition spreadPenalty (penaltyAction : PenaltyAction) : NextAction :=
  mkNextAction true (pa_type penaltyAction)
    (pa_nextPlayerPenaltyCount penaltyAction)
    (pa_currentPenaltyCount penaltyAction)
    (pa_allowSuitChoice penaltyAction) (pa_penaltyCards penaltyAction)
    (pa_skipTurns penaltyAction) (pa_drawCards penaltyAction)
    (pa_message penaltyAction).

Definition invalidMove (next current : Z) (msg : string) : NextAction :=
  mkNextAction false INVALID_MOVE next current None None None None msg.

(** The legality gate of [getNextAction] (its local [isValidMove]). *)
Definition isValidMove (playedCard prevCard : Card)
    (selectedSuit : option string) : bool :=
  isBasicMatch playedCard prevCard selectedSuit
  || isMasterCard playedCard
  || (truthy selectedSuit
      && match selectedSuit with
         | Some t => String.eqb (s playedCard) t
         | None => false
         end)
  || isValidJokerMove playedCard prevCard selectedSuit
  || isAce playedCard.

Definition getNextAction (prevCard : option Card) (playedCard : Card)
    (isPenaltyActive : bool) (selectedSuit : option string)
    (currentCount nextCount : Z) : NextAction :=
  match prevCard with
  | None =>
      (* first move: any card is valid *)
      let cardEffect := getCardEffectAction playedCard isPenaltyActive in
      spreadEffect (default 0 (ce_penaltyCards cardEffect)) 0 cardEffect
  | Some prev =>
      if negb (isValidMove playedCard prev selectedSuit) then
        invalidMove nextCount currentCount
          ("Cannot play " +:+ pretty (v playedCard) +:+ " of " +:+ s playedCard)
      else if isPenaltyActive && (currentCount >? 0) then
        if isMasterCard playedCard then
          spreadEffect 0 0 (getCardEffectAction playedCard isPenaltyActive)
        else if isPenaltyCard playedCard
                && isBasicMatch playedCard prev selectedSuit then
          spreadPenalty
            (calculatePenaltyAction playedCard prev currentCount selectedSuit)
        else
          invalidMove nextCount currentCount
            ("Must play a penalty card (2 or 3) or master card when penalty is active ("
               +:+ pretty currentCount +:+ " cards pending)")
      else if isAce playedCard || isJoker playedCard then
        let cardEffect := getCardEffectAction playedCard isPenaltyActive in
        spreadEffect (default 0 (ce_penaltyCards cardEffect)) 0 cardEffect
      else
        let cardEffect := getCardEffectAction playedCard isPenaltyActive in
        spreadEffect (default 0 (ce_penaltyCards cardEffect)) 0 cardEffect
  end.

End Rules.

(** ** The [players] object

    [gameState.players] maps a player id to the array of cards in hand.
    [Object.keys] lists the ids in insertion order, and [handleMove]
    reads that order, so the object is an association list.  A lookup
    is a lookup among the object's own keys: an id that is no player
    but a name every object inherits ([constructor], [toString], ...)
    is not modelled, and what is proved of a turn takes the actor to be
    a player. *)

Abbreviation Players := (list (string * list Card)).

Fixpoint players_get (id : string) (ps : Players) : option (list Card) :=
  match ps with
  | [] => None
  | (k, hand) :: rest =>
      if String.eqb k id then Some hand else players_get id rest
  end.

(** [players[id] = f(players[id])], and [players[id].push(...)]: the
    hand under an existing key is replaced in place.  [handleMove]
    reaches these only after its check that [players[from]] exists; on
    a missing key JavaScript would throw, and nothing changes here. *)
Fixpoint players_alter (f : list Card -> list Card) (id : string)
    (ps : Players) : Players :=
  match ps with
  | [] => []
  | (k, hand) :: rest =>
      if String.eqb k id then (k, f hand) :: rest
      else (k, hand) :: players_alter f id rest
  end.

Definition players_keys (ps : Players) : list string := map fst ps.

(** ** Array helpers *)

(** [arr.slice(-n)]: the last [n] elements; [slice(-0)] is the whole
    array. *)
Definition slice_last {A} (n : nat) (l : list A) : list A :=
  match n with
  | O => l
  | _ => drop (length l - n) l
  end.

(** [arr.splice(-n)]: removes the last [n] elements, and everything
    when [n] is 0 (the start index is then 0). *)
Definition splice_last {A} (n : nat) (l : list A) : list A :=
  match n with
  | O => []
  | _ => take (length l - n) l
  end.

(** [drawnCards.every((drawnCard, index) => ...)] against [topCards],
    from index [i] on. *)
Fixpoint every_matches (i : nat) (drawnCards topCards : list Card) : bool :=
  match drawnCards with
  | [] => true
  | drawnCard :: rest =>
      match topCards !! i with
      | Some deckCard =>
          card_eqb deckCard drawnCard && every_matches (S i) rest topCards
      | None => false
      end
  end.

(** [arr.sort((a, b) => a.totalValue - b.totalValue)]: the sort is
    stable, so it is insertion from the right. *)
Fixpoint insert_by_total (x : string * Z) (l : list (string * Z))
    : list (string * Z) :=
  match l with
  | [] => [x]
  | y :: rest =>
      if snd x <=? snd y then x :: l else y :: insert_by_total x rest
  end.

Definition sort_by_total (l : list (string * Z)) : list (string * Z) :=
  foldr insert_by_total [] l.

(** ** handleMove.ts *)

Module HandleMove.

Definition PENALTY_CARDS := [2; 3; 50].

(** [GameState] of [../types]; the two timeout fields hold timer
    handles. *)
Record GameState : Type := mkGameState {
  gameId : string;
  players : Players;
  deck : list Card;
  playedCards : list Card;
  currentCard : option Card;
  currentTurn : string;
  cuttingCard : Card;
  chosenSuit : option string;
  activePenaltyCount : Z;
  turnExpiresAt : Z;
  waitTimeout : option Z;
  moveTimeout : option Z
}.

Definition set_players (x : Players) (g : GameState) : GameState :=
  mkGameState (gameId g) x (deck g) (playedCards g) (currentCard g)
    (currentTurn g) (cuttingCard g) (chosenSuit g) (activePenaltyCount g)
    (turnExpiresAt g) (waitTimeout g) (moveTimeout g).

Definition set_deck (x : list Card) (g : GameState) : GameState :=
  mkGameState (gameId g) (players g) x (playedCards g) (currentCard g)
    (currentTurn g) (cuttingCard g) (chosenSuit g) (activePenaltyCount g)
    (turnExpiresAt g) (waitTimeout g) (moveTimeout g).

Definition set_playedCards (x : list Card) (g : GameState) : GameState :=
  mkGameState (gameId g) (players g) (deck g) x (currentCard g)
    (currentTurn g) (cuttingCard g) (chosenSuit g) (activePenaltyCount g)
    (turnExpiresAt g) (waitTimeout g) (moveTimeout g).

Definition set_currentCard (x : option Card) (g : GameState) : GameState :=
  mkGameState (gameId g) (players g) (deck g) (playedCards g) x
    (currentTurn g) (cuttingCard g) (chosenSuit g) (activePenaltyCount g)
    (turnExpiresAt g) (waitTimeout g) (moveTimeout g).

Definition set_currentTurn (x : string) (g : GameState) : GameState :=
  mkGameState (gameId g) (players g) (deck g) (playedCards g) (currentCard g)
    x (cuttingCard g) (chosenSuit g) (activePenaltyCount g)
    (turnExpiresAt g) (waitTimeout g) (moveTimeout g).

Definition set_chosenSuit (x : option string) (g : GameState) : GameState :=
  mkGameState (gameId g) (players g) (deck g) (playedCards g) (currentCard g)
    (currentTurn g) (cuttingCard g) x (activePenaltyCount g)
    (turnExpiresAt g) (waitTimeout g) (moveTimeout g).

Definition set_activePenaltyCount (x : Z) (g : GameState) : GameState :=
  mkGameState (gameId g) (players g) (deck g) (playedCards g) (currentCard g)
    (currentTurn g) (cuttingCard g) (chosenSuit g) x
    (turnExpiresAt g) (waitTimeout g) (moveTimeout g).

Definition set_turnExpiresAt (x : Z) (g : GameState) : GameState :=
  mkGameState (gameId g) (players g) (deck g) (playedCards g) (currentCard g)
    (currentTurn g) (cuttingCard g) (chosenSuit g) (activePenaltyCount g)
    x (waitTimeout g) (moveTimeout g).

Definition set_waitTimeout (x : option Z) (g : GameState) : GameState :=
  mkGameState (gameId g) (players g) (deck g) (playedCards g) (currentCard g)
    (currentTurn g) (cuttingCard g) (chosenSuit g) (activePenaltyCount g)
    (turnExpiresAt g) x (moveTimeout g).

Definition set_moveTimeout (x : option Z) (g : GameState) : GameState :=
  mkGameState (gameId g) (players g) (deck g) (playedCards g) (currentCard g)
    (currentTurn g) (cuttingCard g) (chosenSuit g) (activePenaltyCount g)
    (turnExpiresAt g) (waitTimeout g) x.

(** What the handler imports and does not define: the timeout length
    and the connection registry of [../state], the shuffle of
    [../../utils/cardUtils] (its [newDeck] result), and the clock. *)
Record Env : Type := mkEnv {
  PLAY_TIMEOUT_DURATION : Z;
  clients : gset string;
  reshufflePlayedCards : list Card -> list Card -> list Card;
  dateNow : Z
}.

(** One element of the request's [cards] array, [{type, v, s}]. *)
Record MoveCard : Type := mkMoveCard { kind : string; card : Card }.

(** The request's [data]. *)
Record Data : Type := mkData {
  data_gameId : string;
  data_from : string;
  data_to : string;
  data_cards : list MoveCard;
  data_newSuit : option string
}.

Definition validateDrawnCards (deckCards drawnCards : list Card) : bool :=
  if (length deckCards <? length drawnCards)%nat then false
  else
    let topCards := slice_last (length drawnCards) deckCards in
    every_matches 0 drawnCards topCards.

(** Returns the state and [{reshuffled, count}]. *)
Definition handleDeckReshuffle (env : Env) (gameState : GameState)
    : GameState * bool * nat :=
  let minimumDeckSize := 5%nat in
  match playedCards gameState with
  | [] => (gameState, false, 0%nat)
  | first :: others =>
      if (length (deck gameState) <=? minimumDeckSize)%nat
         && (1 <? length (playedCards gameState))%nat then
        let topCard := List.last others first in
        let cardsToReshuffle := removelast (playedCards gameState) in
        let remainingDeckCards := deck gameState in
        let newDeck := reshufflePlayedCards env [] cardsToReshuffle in
        let reshuffledCount := length cardsToReshuffle in
        (set_playedCards [topCard]
           (set_deck (newDeck ++ remainingDeckCards) gameState),
         true, reshuffledCount)
      else (gameState, false, 0%nat)
  end.

(** Returns the state and [{success, reshuffled}].  The check of the
    drawn cards against the deck is commented out in the source, so
    [success] is always true. *)
Definition processDrawAction (env : Env) (gameState : GameState)
    (from : string) (drawnCards : list Card) : GameState * bool * bool :=
  let '(g1, reshuffled, _) := handleDeckReshuffle env gameState in
  let g2 := set_deck (splice_last (length drawnCards) (deck g1)) g1 in
  let g3 :=
    set_players (players_alter (fun hand => hand ++ drawnCards) from
                   (players g2)) g2 in
  (g3, true, reshuffled).

Definition processPenaltyCard (gameState : GameState) (action : Card)
    : GameState :=
  let isPenaltyCard := fun value : Z => includes_num PENALTY_CARDS value in
  let getPenaltyValue := fun value : Z => if value =? 50 then 5 else value in
  let previousPenaltyCard :=
    match currentCard gameState with
    | Some c => if isPenaltyCard (v c) then Some c else None
    | None => None
    end in
  if isPenaltyCard (v action) then
    let newPenaltyValue := getPenaltyValue (v action) in
    match previousPenaltyCard with
    | Some prev =>
        let previousValue := getPenaltyValue (v prev) in
        if previousValue =? newPenaltyValue then
          set_activePenaltyCount newPenaltyValue gameState
        else if previousValue >? newPenaltyValue then
          set_activePenaltyCount 0 gameState
        else set_activePenaltyCount newPenaltyValue gameState
    | None => set_activePenaltyCount newPenaltyValue gameState
    end
  else gameState.

(** The actor's hand, for [players[from].length]. *)
Definition hand_of (from : string) (gameState : GameState) : list Card :=
  default [] (players_get from (players gameState)).

(** Returns the state and [{isCuttingCard, remainingCards}]. *)
Definition processPlayAction (gameState : GameState) (from : string)
    (action : Card) (newSuit : option string) : GameState * bool * nat :=
  let g1 :=
    if truthy (chosenSuit gameState) then set_chosenSuit None gameState
    else gameState in
  let g2 := processPenaltyCard g1 action in
  let isCuttingCard :=
    (v action =? 7) && String.eqb (s action) (s (cuttingCard g2)) in
  let g3 := if truthy newSuit then set_chosenSuit newSuit g2 else g2 in
  let g4 :=
    set_players
      (players_alter
         (List.filter
            (fun c => negb ((v c =? v action) && String.eqb (s c) (s action))))
         from (players g3)) g3 in
  let g5 := set_playedCards (playedCards g4 ++ [action]) g4 in
  let g6 := set_currentCard (Some action) g5 in
  (g6, isCuttingCard, length (hand_of from g6)).

(** The game state as the move message carries it:
    [const {waitTimeout, moveTimeout, ...newGameState} = gameState]. *)
Record Snapshot : Type := mkSnapshot {
  snap_gameId : string;
  snap_players : Players;
  snap_deck : list Card;
  snap_playedCards : list Card;
  snap_currentCard : option Card;
  snap_currentTurn : string;
  snap_cuttingCard : Card;
  snap_chosenSuit : option string;
  snap_activePenaltyCount : Z;
  snap_turnExpiresAt : Z
}.

Definition snapshot (g : GameState) : Snapshot :=
  mkSnapshot (gameId g) (players g) (deck g) (playedCards g) (currentCard g)
    (currentTurn g) (cuttingCard g) (chosenSuit g) (activePenaltyCount g)
    (turnExpiresAt g).

Record MoveData : Type := mkMoveData {
  md_from : string;
  md_to : string;
  md_cards : list MoveCard;
  md_newSuit : option string;
  md_gameState : Snapshot;
  md_reshuffled : bool
}.

(** What the handler does to the outside, in order: the error sent to
    the caller, the calls of [endGame] and [startTimeout], and the move
    message sent to a player.  [endGame] and [startTimeout] are
    imported and not part of the sources; what they do to the stored
    state is theirs and is not followed here. *)
Inductive Event : Type :=
| WsSendError (msg : string)
| EndGameCall (winner : string) (loser : option string) (reason : string)
    (additionalData : Data)
| StartTimeoutCall (game : string)
| ClientSend (playerId : string) (moveData : MoveData).

(** The [return] the handler leaves by. *)
Inductive Exit : Type :=
| GameNotFound
| PlayerNotFound
| DrawFailed
| WonNoCards
| WonCuttingCard
| ThrewTypeError
| Continued.

Record Result : Type := mkResult {
  store : gmap string GameState;
  events : list Event;
  exit : Exit
}.

(** The loop over [playActions]; the last component says whether the
    loop returned from the handler (a hand of one card was left). *)
Fixpoint playLoop (gameState : GameState) (from : string)
    (playActions : list MoveCard) (newSuit : option string)
    (cuttingCardPlayed : bool) : GameState * bool * bool :=
  match playActions with
  | [] => (gameState, cuttingCardPlayed, false)
  | action :: rest =>
      let actionCard := mkCard (v (card action)) (s (card action)) in
      let '(g1, isCuttingCard, remainingCards) :=
        processPlayAction gameState from actionCard newSuit in
      let cuttingCardPlayed' :=
        if isCuttingCard then true else cuttingCardPlayed in
      if (remainingCards =? 1)%nat then (g1, cuttingCardPlayed', true)
      else playLoop g1 from rest newSuit cuttingCardPlayed'
  end.

(** [Object.keys(gameState.players).find((id) => id !== from)]. *)
Definition opponent_of (from : string) (gameState : GameState)
    : option string :=
  List.find (fun id => negb (String.eqb id from))
    (players_keys (players gameState)).

(** [playerCardSums], sorted by [totalValue]. *)
Definition playerCardSums (gameState : GameState) : list (string * Z) :=
  sort_by_total
    (map (fun id =>
            (id, fold_left (fun sum c => sum + v c)
                   (default [] (players_get id (players gameState))) 0))
       (players_keys (players gameState))).

(** The body of [cards.map] in the notification: a card that is not a
    draw is written to [currentCard], and [chosenSuit] is set from
    [newSuit]. *)
Definition notifyCard (newSuit : option string) (gameState : GameState)
    (c : MoveCard) : GameState :=
  if String.eqb (kind c) "DRAW" then gameState
  else
    let g1 := set_currentCard (Some (card c)) gameState in
    if truthy newSuit then set_chosenSuit newSuit g1
    else set_chosenSuit None g1.

Definition moveDataCard (c : MoveCard) : MoveCard :=
  if String.eqb (kind c) "DRAW" then mkMoveCard "DRAW" (card c)
  else mkMoveCard "PLAY" (card c).

(** The [forEach] over the player ids: the state after it and the
    messages sent, a message going out only to an id that [clients]
    knows. *)
Fixpoint notifyPlayers (env : Env) (d : Data) (reshuffleOccurred : bool)
    (ids : list string) (gameState : GameState)
    : GameState * list Event :=
  match ids with
  | [] => (gameState, [])
  | playerId :: rest =>
      let g1 := fold_left (notifyCard (data_newSuit d)) (data_cards d)
                  gameState in
      let moveData :=
        mkMoveData (data_from d) (data_to d)
          (map moveDataCard (data_cards d)) (data_newSuit d)
          (snapshot g1) reshuffleOccurred in
      let sent :=
        if decide (playerId ∈ clients env)
        then [ClientSend playerId moveData] else [] in
      let '(g2, more) := notifyPlayers env d reshuffleOccurred rest g1 in
      (g2, sent ++ more)
  end.

(** The draw phase of [handleMove]: the state, whether it succeeded and
    whether a reshuffle occurred. *)
Definition drawPhase (env : Env) (gameState : GameState) (d : Data)
    : GameState * bool * bool :=
  let drawActions :=
    List.filter (fun c => String.eqb (kind c) "DRAW") (data_cards d) in
  if (0 <? length drawActions)%nat then
    let drawnCards :=
      map (fun action => mkCard (v (card action)) (s (card action)))
        drawActions in
    processDrawAction env gameState (data_from d) drawnCards
  else (gameState, true, false).

Definition handleMove (env : Env) (gameStates : gmap string GameState)
    (d : Data) : Result :=
  match gameStates !! data_gameId d with
  | None =>
      mkResult gameStates [WsSendError "Game not found"] GameNotFound
  | Some gameState =>
      match players_get (data_from d) (players gameState) with
      | None =>
          mkResult gameStates [WsSendError "Player not found in game"]
            PlayerNotFound
      | Some _ =>
          let g0 := set_waitTimeout None gameState in
          let playActions :=
            List.filter (fun c => String.eqb (kind c) "PLAY")
              (data_cards d) in
          let '(g1, success, reshuffleOccurred) := drawPhase env g0 d in
          if negb success then
            mkResult (<[data_gameId d := g1]> gameStates) [] DrawFailed
          else
            let '(g2, cuttingCardPlayed, won) :=
              playLoop g1 (data_from d) playActions (data_newSuit d) false in
            if won then
              mkResult (<[data_gameId d := g2]> gameStates)
                [EndGameCall (data_from d) (opponent_of (data_from d) g2)
                   "NO_CARDS" d]
                WonNoCards
            else if cuttingCardPlayed then
              match playerCardSums g2 with
              | first :: second :: _ =>
                  mkResult (<[data_gameId d := g2]> gameStates)
                    [EndGameCall (fst first) (Some (fst second))
                       "CUTTING_CARD" d]
                    WonCuttingCard
              | _ =>
                  (* playerCardSums[1].id on fewer than two players *)
                  mkResult (<[data_gameId d := g2]> gameStates) []
                    ThrewTypeError
              end
            else
              let g3 := set_currentTurn (data_to d) g2 in
              let g4 :=
                set_turnExpiresAt (dateNow env + PLAY_TIMEOUT_DURATION env)
                  g3 in
              let '(g5, sends) :=
                notifyPlayers env d reshuffleOccurred
                  (players_keys (players g4)) g4 in
              let g6 :=
                if activePenaltyCount g5 =? 0 then g5
                else set_activePenaltyCount 0 g5 in
              mkResult (<[data_gameId d := g6]> gameStates)
                (StartTimeoutCall (data_gameId d) :: sends) Continued
      end
  end.

End HandleMove.

(** ** The fixture of [handleMove.test.ts] *)

Module Fixture.

Import HandleMove.

Definition mockGameState : GameState :=
  mkGameState "test-game-id"
    [("player1",
      [mkCard 5 "hearts"; mkCard 7 "spades"; mkCard 2 "clubs"]);
     ("player2", [mkCard 9 "diamonds"; mkCard 11 "hearts"])]
    [mkCard 3 "spades"; mkCard 4 "hearts"; mkCard 6 "clubs"]
    [mkCard 8 "diamonds"]
    (Some (mkCard 8 "diamonds"))
    "player1"
    (mkCard 7 "spades")
    None 0 0 None None.

Definition mockGameStates : gmap string GameState :=
  {[ "test-game-id" := mockGameState ]}.

(** Both players connected, a timeout of 30000, and a shuffle that
    reverses the cards under the given deck. *)
Definition mockEnv : Env :=
  mkEnv 30000 {[ "player1"; "player2" ]} (fun d cs => d ++ rev cs) 1000.

Definition request (cards : list MoveCard) : Data :=
  mkData "test-game-id" "player1" "player2" cards None.

(** A low deck of 4 over a discard pile of 6. *)
Definition lowDeckState : GameState :=
  set_playedCards
    [mkCard 8 "diamonds"; mkCard 9 "clubs"; mkCard 9 "hearts";
     mkCard 10 "hearts"; mkCard 10 "spades"; mkCard 4 "spades"]
    (set_deck
       [mkCard 3 "spades"; mkCard 4 "hearts"; mkCard 6 "clubs";
        mkCard 6 "hearts"]
       mockGameState).

(** The fixture with the 5 of hearts twice in the actor's hand. *)
Definition duplicateHandState : GameState :=
  set_players
    [("player1",
      [mkCard 5 "hearts"; mkCard 5 "hearts"; mkCard 7 "spades";
       mkCard 2 "clubs"]);
     ("player2", [mkCard 9 "diamonds"; mkCard 11 "hearts"])]
    mockGameState.

(** The fixture with two cards in the actor's hand. *)
Definition twoCardState : GameState :=
  set_players
    [("player1", [mkCard 5 "hearts"; mkCard 9 "clubs"]);
     ("player2", [mkCard 9 "diamonds"; mkCard 11 "hearts"])]
    mockGameState.

End Fixture.

(** ** What the properties speak of *)

Module Turn.

Import HandleMove.

(** Every card of the game: all hands, the deck and the played cards. *)
Definition all_cards (g : GameState) : list Card :=
  concat (map snd (players g)) ++ deck g ++ playedCards g.

(** The [drawnCards] and [playActions] of a request. *)
Definition draws_of (d : Data) : list Card :=
  map (fun action => mkCard (v (card action)) (s (card action)))
    (List.filter (fun c => String.eqb (kind c) "DRAW") (data_cards d)).

Definition plays_of (d : Data) : list MoveCard :=
  List.filter (fun c => String.eqb (kind c) "PLAY") (data_cards d).

(** The deck the draws are taken from: the stored deck after the
    replenishment check of the draw phase. *)
Definition deck_at_draw (env : Env) (g : GameState) : list Card :=
  deck (fst (fst (handleDeckReshuffle env (set_waitTimeout None g)))).

(** How many times the actor's hand holds a card. *)
Definition count_card (a : Card) (hand : list Card) : nat :=
  length (List.filter (fun c => card_eqb c a) hand).

(** Each card played is held exactly once by the actor when its turn in
    the play loop comes; the loop stops at a hand of one card. *)
Fixpoint plays_held (hand : list Card) (plays : list Card) : bool :=
  match plays with
  | [] => true
  | a :: rest =>
      let hand' := List.filter (fun c => negb (card_eqb c a)) hand in
      (count_card a hand =? 1)%nat
      && ((length hand' =? 1)%nat || plays_held hand' rest)
  end.

(** The state when the play loop of the turn is over. *)
Definition after_plays (env : Env) (g : GameState) (d : Data) : GameState :=
  fst (fst (playLoop (fst (fst (drawPhase env (set_waitTimeout None g) d)))
              (data_from d) (plays_of d) (data_newSuit d) false)).

(** [g'] has the hands, the piles and the penalty count of [g]. *)
Definition same_piles (g g' : GameState) : Prop :=
  players g' = players g
  /\ deck g' = deck g
  /\ playedCards g' = playedCards g
  /\ activePenaltyCount g' = activePenaltyCount g.

End Turn.

(** ** What the further properties speak of *)

Module Observed.

Import HandleMove.

(** The [totalValue] of each player, in key order (the array
    [playerCardSums] before it is sorted). *)
Definition hand_totals (g : GameState) : list (string * Z) :=
  map (fun id =>
         (id, fold_left (fun sum c => sum + v c)
                (default [] (players_get id (players g))) 0))
    (players_keys (players g)).

(** The players the move messages of a list of events went to. *)
Definition recipients (evs : list Event) : list string :=
  flat_map (fun e => match e with
                     | ClientSend playerId _ => [playerId]
                     | _ => []
                     end) evs.

(** The test [processPlayAction] makes for the cutting card. *)
Definition is_cutting (g : GameState) (c : Card) : bool :=
  (v c =? 7) && String.eqb (s c) (s (cuttingCard g)).

(** The state after the turn was handed over with nothing else done. *)
Definition handed_over (env : Env) (d : Data) (g : GameState) : GameState :=
  set_activePenaltyCount 0
    (set_turnExpiresAt (dateNow env + PLAY_TIMEOUT_DURATION env)
       (set_currentTurn (data_to d) (set_waitTimeout None g))).

(** [g'] is the game of [g] with the same players in the same order,
    and every hand but the actor's as in [g]. *)
Definition untouched (from : string) (g g' : GameState) : Prop :=
  gameId g' = gameId g
  /\ cuttingCard g' = cuttingCard g
  /\ players_keys (players g') = players_keys (players g)
  /\ forall p : string,
       p <> from -> players_get p (players g') = players_get p (players g).

End Observed.

(** ** Further states on the fixture *)

Module Cases.

Import HandleMove Fixture.

(** The fixture with player1 alone in the game. *)
Definition soloState : GameState :=
  set_players
    [("player1", [mkCard 5 "hearts"; mkCard 7 "spades"; mkCard 2 "clubs"])]
    mockGameState.

(** The fixture with three cards pending as a penalty. *)
Definition pendingState : GameState :=
  set_activePenaltyCount 3 mockGameState.

(** Two games in the store. *)
Definition twoGames : gmap string GameState :=
  <["other-game-id" := lowDeckState]> mockGameStates.

(** The fixture with the two hands worth the same: 5 + 7 + 2 and
    3 + 11. *)
Definition tiedState : GameState :=
  set_players
    [("player1",
      [mkCard 5 "hearts"; mkCard 7 "spades"; mkCard 2 "clubs";
       mkCard 7 "hearts"]);
     ("player2", [mkCard 3 "diamonds"; mkCard 11 "hearts"])]
    mockGameState.

End Cases.

(** ** The cards of the deck *)

Module Deck.

Import Rules.

(** A card as the deck holds it: the value 50 is the jokers'
    ([case 50: // Joker value] in [getCardEffectAction], and the jokers
    of the test suite), and a joker has no other value. *)
Definition deckCard (c : Card) : bool := Bool.eqb (isJoker c) (v c =? 50).

End Deck.

(** ** The course of the play loop *)

Module Course.

Import HandleMove.

(** The hand after [action] is played from it: the [filter] of
    [processPlayAction] takes every copy of the card out. *)
Definition hand_without (action : Card) (hand : list Card) : list Card :=
  List.filter
    (fun c => negb ((v c =? v action) && String.eqb (s c) (s action))) hand.

(** The plays the loop of [handleMove] goes through, [hand] being the
    actor's hand when the loop starts: each play in its turn, and none
    after the first that leaves a hand of exactly one card. *)
Fixpoint processed (hand : list Card) (playActions : list MoveCard)
    : list MoveCard :=
  match playActions with
  | [] => []
  | action :: rest =>
      let hand' := hand_without (card action) hand in
      if (length hand' =? 1)%nat then [action]
      else action :: processed hand' rest
  end.

(** Whether the loop returns from the handler: one of the plays leaves
    a hand of exactly one card. *)
Fixpoint leaves_one (hand : list Card) (playActions : list MoveCard)
    : bool :=
  match playActions with
  | [] => false
  | action :: rest =>
      let hand' := hand_without (card action) hand in
      (length hand' =? 1)%nat || leaves_one hand' rest
  end.

(** The hand after a list of plays. *)
Definition hand_after (hand : list Card) (playActions : list MoveCard)
    : list Card :=
  fold_left (fun h action => hand_without (card action) h) playActions hand.

(** The penalty count [processPenaltyCard] leaves when [action] is
    played on the current card [current] with [count] cards pending: a
    card that is not a penalty card leaves the count, a penalty card
    sets it to 0 on a stronger penalty card and to its own weight
    otherwise. *)
Definition count_after_play (current : option Card) (count : Z)
    (action : Card) : Z :=
  let weight := fun value : Z => if value =? 50 then 5 else value in
  if includes_num PENALTY_CARDS (v action) then
    match current with
    | Some c =>
        if includes_num PENALTY_CARDS (v c)
           && (weight (v c) >? weight (v action))
        then 0 else weight (v action)
    | None => weight (v action)
    end
  else count.

(** The penalty count after a list of plays, each played on the card
    played before it. *)
Fixpoint count_after (current : option Card) (count : Z)
    (playActions : list MoveCard) : Z :=
  match playActions with
  | [] => count
  | action :: rest =>
      count_after (Some (card action))
        (count_after_play current count (card action)) rest
  end.

(** The card of the request the notification writes to [currentCard]
    last: the last one that is not a draw. *)
Fixpoint last_shown (cards : list MoveCard) : option MoveCard :=
  match cards with
  | [] => None
  | c :: rest =>
      match last_shown rest with
      | Some c' => Some c'
      | None => if String.eqb (kind c) "DRAW" then None else Some c
      end
  end.

End Course.

(** * Properties of the rules engine *)

Section RulesProperties.

Import Rules Deck.

Lemma card_eqb_eq a b : card_eqb a b = true <-> a = b.
Proof.
  destruct a as [va sa], b as [vb sb]. unfold card_eqb. simpl.
  rewrite andb_true_iff, Z.eqb_eq, String.eqb_eq. split.
  - intros [-> ->]. reflexivity.
  - intros H. injection H. auto.
Qed.

(** A penalty card is never the master card: the master card's value is
    15 and its suit is not a joker's. *)
Lemma penalty_card_not_master c :
  isPenaltyCard c = true -> isMasterCard c = false.
Proof.
  unfold isPenaltyCard, isMasterCard, isJoker. simpl.
  destruct (Z.eqb_spec (v c) ACE) as [-> | _]; [| reflexivity].
  destruct (String.eqb_spec (s c) SPADES) as [-> | _]; [| reflexivity].
  simpl. discriminate.
Qed.

(** A basic match passes the legality gate. *)
Lemma basic_match_is_valid played prev sel :
  isBasicMatch played prev sel = true -> isValidMove played prev sel = true.
Proof. unfold isValidMove. intros ->. reflexivity. Qed.

(** A card of the reference suit is a basic match. *)
Lemma reference_suit_basic_match played prev sel :
  referenceSuitOf sel prev = s played -> isBasicMatch played prev sel = true.
Proof.
  unfold referenceSuitOf, isBasicMatch. intros H.
  destruct sel as [t |].
  - destruct (truthy (Some t)).
    + subst t. apply String.eqb_refl.
    + rewrite H, String.eqb_refl. apply orb_true_iff. left. apply orb_true_r.
  - rewrite H, String.eqb_refl. apply orb_true_iff. left. apply orb_true_r.
Qed.

(** In the active-penalty branch a penalty card that is a basic match
    is resolved by [calculatePenaltyAction]. *)
Lemma penalty_branch_delegates prev played sel cur nxt :
  isPenaltyCard played = true ->
  isBasicMatch played prev sel = true ->
  0 < cur ->
  getNextAction (Some prev) played true sel cur nxt
  = spreadPenalty (calculatePenaltyAction played prev cur sel).
Proof.
  intros Hpen Hmatch Hcur. unfold getNextAction.
  rewrite (basic_match_is_valid _ _ _ Hmatch). simpl.
  assert (Hgt : (cur >? 0) = true) by (apply Z.gtb_lt; lia).
  rewrite Hgt, (penalty_card_not_master _ Hpen), Hpen, Hmatch.
  reflexivity.
Qed.



(** Cards of the deck with the same value have the same penalty
    weight. *)
Lemma same_value_same_weight (a b : Card) :
  deckCard a = true -> deckCard b = true -> v a = v b ->
  getCardPenaltyValue a = getCardPenaltyValue b.
Proof.
  unfold deckCard, getCardPenaltyValue. intros Ha Hb Hv.
  apply eqb_prop in Ha, Hb. rewrite Ha, Hb, Hv. reflexivity.
Qed.

(** The penalty weight of a penalty card of the deck: 5 for a joker,
    and else its value, 2 or 3. *)
Lemma deck_penalty_weight (c : Card) :
  deckCard c = true -> isPenaltyCard c = true ->
  (isJoker c = true /\ getCardPenaltyValue c = 5)
  \/ (getCardPenaltyValue c = v c /\ (v c = 2 \/ v c = 3)).
Proof.
  unfold deckCard, isPenaltyCard, getCardPenaltyValue, includes_num.
  intros Hd Hp. apply eqb_prop in Hd.
  destruct (isJoker c); [left; auto |].
  right. split; [reflexivity |].
  unfold PENALTY_VALUES, TWO, THREE in Hp. cbn [existsb] in Hp.
  rewrite <- Hd in Hp. rewrite !orb_false_r in Hp.
  apply orb_true_iff in Hp. rewrite !Z.eqb_eq in Hp. exact Hp.
Qed.

(** A basic match of two cards of the deck that differ in penalty
    weight is a match by suit, the played card being of the reference
    suit, or a colour match with a joker. *)
Lemma match_by_suit_or_colour (prev played : Card) (sel : option string) :
  deckCard prev = true -> deckCard played = true ->
  getCardPenaltyValue played <> getCardPenaltyValue prev ->
  isBasicMatch played prev sel = true ->
  String.eqb (referenceSuitOf sel prev) (s played) = true
  \/ isValidJokerMove played prev sel = true.
Proof.
  intros Hdp Hdq Hw.
  assert (Hv : (v played =? v prev) = false).
  { apply Z.eqb_neq. intros Heq. apply Hw.
    apply same_value_same_weight; assumption. }
  unfold isBasicMatch, referenceSuitOf. rewrite Hv. cbn [orb].
  destruct sel as [t |].
  - destruct (truthy (Some t)).
    + intros Hs. left. rewrite String.eqb_sym. exact Hs.
    + intros Hm. apply orb_true_iff in Hm. destruct Hm as [Hs | Hj].
      * left. rewrite String.eqb_sym. exact Hs.
      * right. exact Hj.
  - intros Hm. apply orb_true_iff in Hm. destruct Hm as [Hs | Hj].
    + left. rewrite String.eqb_sym. exact Hs.
    + right. exact Hj.
Qed.

(** With a penalty active, a penalty card of the deck that is a basic
    match and weaker than the previous penalty card reduces the
    penalty, be it by the same-suit rule or by the colour-match rule:
    the two leave the same counts.  The played card is then no joker,
    and its weight is its value, 2 or 3. *)
Lemma weaker_penalty_card_reduces (prev played : Card)
    (sel : option string) (cur nxt : Z) :
  deckCard prev = true -> deckCard played = true ->
  isPenaltyCard prev = true ->
  isPenaltyCard played = true ->
  getCardPenaltyValue played < getCardPenaltyValue prev ->
  0 < cur ->
  isBasicMatch played prev sel = true ->
  let r := getNextAction (Some prev) played true sel cur nxt in
  let remaining := Z.max (cur - getCardPenaltyValue played) 0 in
  valid r = true
  /\ type r = REDUCE_PENALTY
  /\ currentPenaltyCount r = remaining
  /\ drawCards r = Some remaining
  /\ nextPlayerPenaltyCount r = 0
  /\ getCardPenaltyValue played = v played
  /\ (v played = 2 \/ v played = 3).
Proof.
  intros Hdp Hdq Hprev Hplayed Hw Hcur Hmatch r remaining.
  subst r remaining.
  assert (Hweight : getCardPenaltyValue played = v played
                    /\ (v played = 2 \/ v played = 3)).
  { destruct (deck_penalty_weight played Hdq Hplayed) as [[_ Hq] | Hq];
      [| exact Hq].
    destruct (deck_penalty_weight prev Hdp Hprev)
      as [[_ Hp] | [Hp [Hv | Hv]]]; lia. }
  rewrite penalty_branch_delegates by assumption.
  assert (Hne : (getCardPenaltyValue prev =? getCardPenaltyValue played)
                = false) by (apply Z.eqb_neq; lia).
  assert (Hlt : (getCardPenaltyValue prev <? getCardPenaltyValue played)
                = false) by (apply Z.ltb_ge; lia).
  assert (Hgt : (getCardPenaltyValue prev >? getCardPenaltyValue played)
                = true) by (apply Z.gtb_lt; lia).
  assert (Hway : String.eqb (referenceSuitOf sel prev) (s played) = true
                 \/ isValidJokerMove played prev sel = true)
    by (apply match_by_suit_or_colour; [assumption | assumption | lia
                                        | assumption]).
  unfold calculatePenaltyAction. rewrite Hprev, Hne, Hlt, Hgt.
  destruct (String.eqb (referenceSuitOf sel prev) (s played));
    [simpl; auto 10 |].
  destruct Hway as [Hsuit | Hcolour]; [discriminate |].
  rewrite Hcolour. simpl. auto 10.
Qed.

(** C4.  With a penalty active (the flag set and a positive pending
    count), a previous penalty card of the reference suit (the selected
    suit, else the previous card's own suit) that is strictly stronger
    than the played penalty card, the play being one the penalty rules
    are reached with (a basic match, which the active-penalty branch
    asks of a penalty card) and the two cards being cards of the deck,
    [getNextAction] answers [REDUCE_PENALTY]: the remaining count is
    [max (pending - played weight) 0], the acting player draws it
    ([drawCards]) and the next player's count is 0; the played weight
    is the played card's value, 2 or 3.  For a 2 of hearts on a 3 of
    hearts with 5 pending, 3 remain. *)
Theorem stronger_previous_penalty_reduces :
  (forall (prev played : Card) (sel : option string) (cur nxt : Z),
      deckCard prev = true -> deckCard played = true ->
      isPenaltyCard prev = true ->
      isPenaltyCard played = true ->
      s prev = referenceSuitOf sel prev ->
      getCardPenaltyValue played < getCardPenaltyValue prev ->
      0 < cur ->
      isBasicMatch played prev sel = true ->
      let r := getNextAction (Some prev) played true sel cur nxt in
      let remaining := Z.max (cur - getCardPenaltyValue played) 0 in
      valid r = true
      /\ type r = REDUCE_PENALTY
      /\ currentPenaltyCount r = remaining
      /\ drawCards r = Some remaining
      /\ nextPlayerPenaltyCount r = 0
      /\ getCardPenaltyValue played = v played
      /\ (v played = 2 \/ v played = 3))
  /\ (let r := getNextAction (Some (mkCard 3 "H")) (mkCard 2 "H") true None
                 5 0 in
      valid r = true
      /\ type r = REDUCE_PENALTY
      /\ currentPenaltyCount r = 3 /\ drawCards r = Some 3
      /\ nextPlayerPenaltyCount r = 0).
Proof.
  split; [| vm_compute; auto].
  intros prev played sel cur nxt Hdp Hdq Hprev Hplayed _ Hw Hcur Hmatch.
  apply weaker_penalty_card_reduces; assumption.
Qed.

(** A 2 of hearts on the red joker, 5 cards pending: the colour match
    reduces the penalty to 3. *)
Lemma stronger_previous_penalty_reduces_witness :
  let r := getNextAction (Some (mkCard 50 "R")) (mkCard 2 "H") true None
             5 0 in
  valid r = true
  /\ type r = REDUCE_PENALTY
  /\ currentPenaltyCount r = 3
  /\ drawCards r = Some 3
  /\ nextPlayerPenaltyCount r = 0
  /\ getCardPenaltyValue (mkCard 2 "H") = 2
  /\ (2 = 2 \/ 2 = 3).
Proof.
  apply (proj1 stronger_previous_penalty_reduces
           (mkCard 50 "R") (mkCard 2 "H") None 5 0);
    [reflexivity | reflexivity | reflexivity | reflexivity | reflexivity
     | vm_compute; reflexivity | lia | reflexivity].
Defined.

(** C5, as stated, fails in its second part: a 7 of hearts on the master
    card is rejected, as the repository's test suite expects. *)
Lemma seven_of_hearts_on_master_rejected :
  let r := getNextAction (Some MASTER_CARD) (mkCard 7 "H") false None 0 0 in
  isMasterCard MASTER_CARD = true
  /\ valid r = false
  /\ type r = INVALID_MOVE.
Proof. vm_compute. auto. Qed.

(** C5, amended.  The master card is a legal play on any previous card
    (and as a first move) in any context, and playing it leaves no
    penalty: the current and the next player's counts are both 0, and
    with the penalty flag set the turn ends.  A card played on the
    master card gets no exemption: it is legal exactly when it passes
    the ordinary legality gate and, with a penalty active, is the
    master card or a penalty card that is a basic match; with no suit
    selected the gate on the master card lets through an Ace, a spade
    and the black joker only. *)
Theorem master_card_rules :
  (forall (prev : option Card) (act : bool) (sel : option string)
          (cur nxt : Z),
      let r := getNextAction prev MASTER_CARD act sel cur nxt in
      valid r = true
      /\ nextPlayerPenaltyCount r = 0
      /\ currentPenaltyCount r = 0
      /\ type r = (if act then END_TURN else CHOOSE_SUIT))
  /\ (forall (played : Card) (act : bool) (sel : option string)
             (cur nxt : Z),
      valid (getNextAction (Some MASTER_CARD) played act sel cur nxt)
      = isValidMove played MASTER_CARD sel
        && (negb (act && (cur >? 0))
            || isMasterCard played
            || (isPenaltyCard played && isBasicMatch played MASTER_CARD sel)))
  /\ (forall played : Card,
      isValidMove played MASTER_CARD None
      = (v played =? ACE) || String.eqb (s played) SPADES
        || String.eqb (s played) BLACK_JOKER).
Proof.
  split; [| split].
  - intros prev act sel cur nxt r. subst r.
    destruct prev as [prev |]; unfold getNextAction.
    + assert (Hv : isValidMove MASTER_CARD prev sel = true).
      { unfold isValidMove. replace (isMasterCard MASTER_CARD) with true
          by reflexivity. rewrite orb_true_r. reflexivity. }
      rewrite Hv. simpl negb. cbv iota.
      destruct act; destruct (cur >? 0); vm_compute; auto.
    + destruct act; vm_compute; auto.
  - intros played act sel cur nxt. unfold getNextAction.
    destruct (isValidMove played MASTER_CARD sel); [| reflexivity].
    simpl negb. cbv iota.
    destruct (act && (cur >? 0)).
    + destruct (isMasterCard played); [reflexivity |].
      destruct (isPenaltyCard played && isBasicMatch played MASTER_CARD sel);
        reflexivity.
    + destruct (isAce played || isJoker played); reflexivity.
  - intros [vp sp]. unfold isValidMove, isBasicMatch, isValidJokerMove,
      isMasterCard, isAce, isJoker. simpl.
    destruct (vp =? ACE); simpl; [reflexivity |].
    destruct (String.eqb_spec sp SPADES) as [-> | Hs]; [reflexivity |].
    destruct (String.eqb_spec sp RED_JOKER) as [-> | Hr]; [reflexivity |].
    destruct (String.eqb_spec sp BLACK_JOKER) as [-> | Hb]; reflexivity.
Qed.

(** C6, as stated, fails: with the penalty flag set and nothing pending
    the move is in the no-active-penalty branch, and a legal Ace of
    hearts there ends the turn instead of asking for a suit. *)
Lemma ace_with_flag_set_ends_turn :
  let played := mkCard 15 "H" in
  let r := getNextAction (Some (mkCard 7 "H")) played true None 0 0 in
  true && (0 >? 0) = false
  /\ isAce played = true
  /\ valid r = true
  /\ type r = END_TURN
  /\ allowSuitChoice r = None.
Proof. vm_compute. auto. Qed.

(** The effect of a joker, whatever the penalty flag. *)
Lemma joker_effect c act :
  isJoker c = true ->
  getCardEffectAction c act
  = mkCardEffect CHOOSE_SUIT (Some true) (Some JOKER_PENALTY_VALUE) None
      "Choose a suit for the joker".
Proof. unfold getCardEffectAction. intros ->. reflexivity. Qed.

(** The effect of an Ace that is not a joker: a suit choice only while
    the penalty flag is not set. *)
Lemma ace_effect c act :
  isAce c = true -> isJoker c = false ->
  ce_type (getCardEffectAction c act) = (if act then END_TURN else CHOOSE_SUIT)
  /\ ce_allowSuitChoice (getCardEffectAction c act)
     = (if act then None else Some true)
  /\ ce_penaltyCards (getCardEffectAction c act) = None.
Proof.
  unfold getCardEffectAction, isAce. intros Ha ->.
  apply Z.eqb_eq in Ha.
  destruct act.
  - rewrite andb_true_r, andb_false_r.
    destruct (isMasterCard c); [simpl; auto |].
    rewrite Ha. simpl. auto.
  - rewrite andb_false_r, andb_true_r.
    rewrite Ha. simpl. auto.
Qed.

(** Outside the active-penalty branch a legal move gets the effect of
    the played card, the next player's count being the effect's
    penalty. *)
Lemma no_penalty_branch prev played act sel cur nxt :
  act && (cur >? 0) = false ->
  valid (getNextAction prev played act sel cur nxt) = true ->
  getNextAction prev played act sel cur nxt
  = let cardEffect := getCardEffectAction played act in
    spreadEffect (default 0 (ce_penaltyCards cardEffect)) 0 cardEffect.
Proof.
  intros Hbr. unfold getNextAction.
  destruct prev as [prev |]; [| reflexivity].
  destruct (isValidMove played prev sel); simpl negb; cbv iota.
  - rewrite Hbr. destruct (isAce played || isJoker played); reflexivity.
  - simpl. discriminate.
Qed.

(** C6, amended.  In the no-active-penalty branch (the penalty flag
    unset, or nothing pending) every legal play of a joker yields
    [CHOOSE_SUIT] with a suit input required and 5 cards for the next
    player; every legal play of an Ace that is not a joker yields
    [CHOOSE_SUIT] with a suit input required and no penalty while the
    penalty flag is unset, and ends the turn, with no suit input and no
    penalty, when the flag is set with nothing pending. *)
Theorem ace_and_joker_choose_suit :
  forall (prev : option Card) (played : Card) (act : bool)
         (sel : option string) (cur nxt : Z),
    act && (cur >? 0) = false ->
    let r := getNextAction prev played act sel cur nxt in
    valid r = true ->
    (isJoker played = true ->
       type r = CHOOSE_SUIT /\ allowSuitChoice r = Some true
       /\ nextPlayerPenaltyCount r = 5)
    /\ (isAce played = true -> isJoker played = false -> act = false ->
          type r = CHOOSE_SUIT /\ allowSuitChoice r = Some true
          /\ nextPlayerPenaltyCount r = 0)
    /\ (isAce played = true -> isJoker played = false -> act = true ->
          type r = END_TURN /\ allowSuitChoice r = None
          /\ nextPlayerPenaltyCount r = 0).
Proof.
  intros prev played act sel cur nxt Hbr r Hvalid. subst r.
  rewrite (no_penalty_branch _ _ _ _ _ _ Hbr Hvalid). cbv zeta.
  split; [| split].
  - intros Hj. rewrite (joker_effect _ _ Hj). simpl. auto.
  - intros Ha Hj ->.
    destruct (ace_effect played false Ha Hj) as (Ht & Hs & Hp).
    unfold spreadEffect. simpl. rewrite Ht, Hs, Hp. auto.
  - intros Ha Hj ->.
    destruct (ace_effect played true Ha Hj) as (Ht & Hs & Hp).
    unfold spreadEffect. simpl. rewrite Ht, Hs, Hp. auto.
Qed.

Lemma ace_and_joker_choose_suit_witness :
  let played := mkCard 50 "R" in
  let r := getNextAction (Some (mkCard 9 "D")) played true None 0 0 in
  (isJoker played = true ->
     type r = CHOOSE_SUIT /\ allowSuitChoice r = Some true
     /\ nextPlayerPenaltyCount r = 5)
  /\ (isAce played = true -> isJoker played = false -> true = false ->
        type r = CHOOSE_SUIT /\ allowSuitChoice r = Some true
        /\ nextPlayerPenaltyCount r = 0)
  /\ (isAce played = true -> isJoker played = false -> true = true ->
        type r = END_TURN /\ allowSuitChoice r = None
        /\ nextPlayerPenaltyCount r = 0).
Proof.
  apply (ace_and_joker_choose_suit (Some (mkCard 9 "D")) (mkCard 50 "R")
           true None 0 0); reflexivity.
Defined.

(** Cases of the repository's own test suite. *)

Example first_move_regular :
  type (getNextAction None (mkCard 7 "H") false None 0 0) = END_TURN.
Proof. reflexivity. Qed.

Example reduce_same_suit :
  let r := getNextAction (Some (mkCard 3 "C")) (mkCard 2 "C") true None 3 0 in
  valid r = true /\ type r = REDUCE_PENALTY
  /\ nextPlayerPenaltyCount r = 0 /\ currentPenaltyCount r = 1.
Proof. vm_compute. auto. Qed.

Example joker_reduce_message :
  message (getNextAction (Some (mkCard 50 "R")) (mkCard 2 "H") true None 5 0)
  = "Color match stronger - penalty reduced, draw 3 cards".
Proof. vm_compute. reflexivity. Qed.

End RulesProperties.

(** * Properties of the move handler *)

Section HandleMoveProperties.

Import HandleMove Turn.

Variable env : Env.

(** Modelled from the spec: [reshufflePlayedCards] of [utils/cardUtils]
    is not part of the sources.  The specification has it shuffle the
    cards it is given, neither removing nor duplicating one: started
    from an empty deck, its new deck is a permutation of the cards to
    reshuffle. *)
Hypothesis shuffle_permutes :
  forall cs : list Card, Permutation (reshufflePlayedCards env [] cs) cs.

(** *** Replenishment *)

Lemma last_cons {A} (a d : A) (l : list A) :
  List.last (a :: l) d = List.last l a.
Proof.
  revert a d. induction l as [| b l IH]; intros a d; [reflexivity |].
  change (List.last (a :: b :: l) d) with (List.last (b :: l) d).
  rewrite (IH b d), (IH b a). reflexivity.
Qed.

(** A non-empty array is its [slice(0, -1)] followed by its last
    element. *)
Lemma split_top {A} (a : A) (l : list A) :
  a :: l = removelast (a :: l) ++ [List.last l a].
Proof.
  rewrite <- (last_cons a a l).
  apply app_removelast_last. discriminate.
Qed.

Lemma reshuffle_guard (g : GameState) :
  snd (fst (handleDeckReshuffle env g))
  = (length (deck g) <=? 5)%nat && (1 <? length (playedCards g))%nat.
Proof.
  unfold handleDeckReshuffle.
  destruct (playedCards g) as [| c cs].
  - simpl. rewrite andb_false_r. reflexivity.
  - destruct ((length (deck g) <=? 5)%nat && (1 <? length (c :: cs))%nat);
      reflexivity.
Qed.

Lemma reshuffle_not_triggered (g : GameState) :
  snd (fst (handleDeckReshuffle env g)) = false ->
  handleDeckReshuffle env g = (g, false, 0%nat).
Proof.
  unfold handleDeckReshuffle.
  destruct (playedCards g) as [| c cs]; [reflexivity |].
  destruct ((length (deck g) <=? 5)%nat && (1 <? length (c :: cs))%nat);
    [discriminate | reflexivity].
Qed.

Lemma reshuffle_triggered (g : GameState) :
  snd (fst (handleDeckReshuffle env g)) = true ->
  exists (top : Card) (rest : list Card),
    playedCards g = rest ++ [top]
    /\ handleDeckReshuffle env g
       = (set_playedCards [top]
            (set_deck (reshufflePlayedCards env [] rest ++ deck g) g),
          true, length rest).
Proof.
  unfold handleDeckReshuffle.
  destruct (playedCards g) as [| c cs] eqn:Hplayed; [discriminate |].
  destruct ((length (deck g) <=? 5)%nat && (1 <? length (c :: cs))%nat);
    [| discriminate].
  intros _. exists (List.last cs c), (removelast (c :: cs)).
  split; [apply split_top | reflexivity].
Qed.

(** C8.  [handleDeckReshuffle] reshuffles exactly when the deck holds at
    most 5 cards and more than one card has been played.  It then
    leaves only the last played card in [playedCards] and puts the
    other played cards, shuffled, under the cards of the deck, which
    stay on top; the number of cards in the two piles together is
    unchanged, and nothing else in the game state changes.  Otherwise
    the state is unchanged.  A deck of 4 with 6 played cards becomes a
    deck of 9 with 1 played card. *)
Theorem reshuffle_policy :
  forall g : GameState,
    let g' := fst (fst (handleDeckReshuffle env g)) in
    let reshuffled := snd (fst (handleDeckReshuffle env g)) in
    let count := snd (handleDeckReshuffle env g) in
    (reshuffled = true
     <-> (length (deck g) <= 5)%nat /\ (1 < length (playedCards g))%nat)
    /\ (reshuffled = true ->
        exists (top : Card) (rest shuffled : list Card),
          playedCards g = rest ++ [top]
          /\ Permutation shuffled rest
          /\ g' = set_playedCards [top] (set_deck (shuffled ++ deck g) g)
          /\ count = length rest
          /\ (length (deck g') + length (playedCards g')
              = length (deck g) + length (playedCards g))%nat)
    /\ (reshuffled = false -> g' = g /\ count = 0%nat)
    /\ (length (deck g) = 4%nat -> length (playedCards g) = 6%nat ->
        reshuffled = true
        /\ length (deck g') = 9%nat /\ length (playedCards g') = 1%nat).
Proof.
  intros g g' reshuffled count.
  assert (Hguard : reshuffled = true
                   <-> (length (deck g) <= 5)%nat
                       /\ (1 < length (playedCards g))%nat).
  { subst reshuffled. rewrite reshuffle_guard, andb_true_iff.
    rewrite Nat.leb_le, Nat.ltb_lt. reflexivity. }
  assert (Hyes : reshuffled = true ->
                 exists (top : Card) (rest shuffled : list Card),
                   playedCards g = rest ++ [top]
                   /\ Permutation shuffled rest
                   /\ g' = set_playedCards [top]
                             (set_deck (shuffled ++ deck g) g)
                   /\ count = length rest
                   /\ (length (deck g') + length (playedCards g')
                       = length (deck g) + length (playedCards g))%nat).
  { intros Hr. destruct (reshuffle_triggered g Hr) as (top & rest & Hp & He).
    exists top, rest, (reshufflePlayedCards env [] rest).
    subst g' count. rewrite He. simpl.
    repeat split; try assumption; try apply shuffle_permutes.
    rewrite Hp, !length_app, (Permutation_length (shuffle_permutes rest)).
    simpl. lia. }
  split; [exact Hguard |]. split; [exact Hyes |]. split.
  - intros Hno. subst g' count.
    rewrite (reshuffle_not_triggered g Hno). split; reflexivity.
  - intros Hdeck Hplayed.
    assert (Hr : reshuffled = true) by (apply Hguard; lia).
    destruct (Hyes Hr) as (top & rest & sh & Hp & Hperm & Hg & _ & Hlen).
    split; [exact Hr |]. rewrite Hg. simpl.
    rewrite length_app, (Permutation_length Hperm).
    rewrite Hp, length_app in Hplayed. simpl in Hplayed. lia.
Qed.

(** *** What each step leaves alone *)

Lemma card_eta (c : Card) : mkCard (v c) (s c) = c.
Proof. destruct c. reflexivity. Qed.

(** [processPenaltyCard] writes [activePenaltyCount] and nothing else. *)
Lemma penalty_card_only_counts (g : GameState) (a : Card) :
  exists n : Z, processPenaltyCard g a = set_activePenaltyCount n g.
Proof.
  unfold processPenaltyCard.
  destruct (includes_num PENALTY_CARDS (v a)).
  - destruct (currentCard g) as [c |].
    + destruct (includes_num PENALTY_CARDS (v c)).
      * destruct ((if v c =? 50 then 5 else v c)
                  =? (if v a =? 50 then 5 else v a)); [eauto |].
        destruct ((if v c =? 50 then 5 else v c)
                  >? (if v a =? 50 then 5 else v a)); eauto.
      * eauto.
    + eauto.
  - exists (activePenaltyCount g). destruct g. reflexivity.
Qed.

(** The state [processPlayAction] returns, field by field. *)
Lemma play_action_fields (g : GameState) (from : string) (a : Card)
    (newSuit : option string) :
  let g' := fst (fst (processPlayAction g from a newSuit)) in
  players g'
  = players_alter (List.filter (fun c => negb ((v c =? v a)
                                               && String.eqb (s c) (s a))))
      from (players g)
  /\ deck g' = deck g
  /\ playedCards g' = playedCards g ++ [a]
  /\ currentCard g' = Some a
  /\ currentTurn g' = currentTurn g
  /\ turnExpiresAt g' = turnExpiresAt g
  /\ snd (processPlayAction g from a newSuit) = length (hand_of from g').
Proof.
  unfold processPlayAction.
  destruct (penalty_card_only_counts
              (if truthy (chosenSuit g) then set_chosenSuit None g else g) a)
    as [n ->].
  destruct (truthy (chosenSuit g)), (truthy newSuit); simpl; auto 10.
Qed.

Lemma play_loop_frame (from : string) (newSuit : option string)
    (plays : list MoveCard) :
  forall (g : GameState) (cut : bool),
    let g' := fst (fst (playLoop g from plays newSuit cut)) in
    deck g' = deck g
    /\ currentTurn g' = currentTurn g
    /\ turnExpiresAt g' = turnExpiresAt g.
Proof.
  induction plays as [| a rest IH]; intros g cut; [simpl; auto |].
  cbn [playLoop]. rewrite card_eta.
  pose proof (play_action_fields g from (card a) newSuit) as Hf.
  destruct (processPlayAction g from (card a) newSuit) as [[g1 isCut] n].
  simpl in Hf. destruct Hf as (_ & Hd & _ & _ & Ht & He & _).
  destruct (n =? 1)%nat.
  - simpl. auto.
  - specialize (IH g1 (if isCut then true else cut)). simpl in IH.
    destruct IH as (Hd' & Ht' & He'). rewrite Hd', Ht', He'. auto.
Qed.

Lemma draw_phase_frame (g : GameState) (d : Data) :
  let g' := fst (fst (drawPhase env g d)) in
  snd (fst (drawPhase env g d)) = true
  /\ currentTurn g' = currentTurn g
  /\ turnExpiresAt g' = turnExpiresAt g.
Proof.
  unfold drawPhase.
  destruct (0 <? length (List.filter (fun c => String.eqb (kind c) "DRAW")
                           (data_cards d)))%nat; [| simpl; auto].
  unfold processDrawAction.
  destruct (snd (fst (handleDeckReshuffle env g))) eqn:Hr.
  - destruct (reshuffle_triggered g Hr) as (top & rest & _ & ->). simpl. auto.
  - rewrite (reshuffle_not_triggered g Hr). simpl. auto.
Qed.

(** The loop over a list of plays that starts with plays which do not
    end the game goes on with the rest. *)
Lemma play_loop_app (from : string) (newSuit : option string)
    (pre rest : list MoveCard) :
  forall (g g2 : GameState) (cut cut2 : bool),
    playLoop g from pre newSuit cut = (g2, cut2, false) ->
    playLoop g from (pre ++ rest) newSuit cut
    = playLoop g2 from rest newSuit cut2.
Proof.
  induction pre as [| a pre IH]; intros g g2 cut cut2 Hpre.
  - simpl in Hpre. injection Hpre as -> ->. reflexivity.
  - cbn [playLoop app] in Hpre |- *.
    destruct (processPlayAction g from (mkCard (v (card a)) (s (card a)))
                newSuit) as [[g1 isCut] n].
    destruct (n =? 1)%nat; [discriminate |].
    apply IH. exact Hpre.
Qed.

(** *** Winning by a hand of one card *)

(** C9.  When a play of the turn leaves the actor exactly one card, the
    handler calls [endGame] with the actor as winner and returns at
    once: the stored state is the state right after that play, so the
    plays after it are not processed; the turn is not handed over, the
    timeout is not started and no move message is sent. *)
Theorem one_card_left_wins :
  forall (gameStates : gmap string GameState) (d : Data)
         (gameState : GameState) (hand : list Card)
         (pre post : list MoveCard) (action : MoveCard)
         (g2 g3 : GameState) (cut isCut : bool),
    gameStates !! data_gameId d = Some gameState ->
    players_get (data_from d) (players gameState) = Some hand ->
    plays_of d = pre ++ action :: post ->
    playLoop (fst (fst (drawPhase env (set_waitTimeout None gameState) d)))
      (data_from d) pre (data_newSuit d) false = (g2, cut, false) ->
    processPlayAction g2 (data_from d) (card action) (data_newSuit d)
    = (g3, isCut, 1%nat) ->
    let r := handleMove env gameStates d in
    exit r = WonNoCards
    /\ events r
       = [EndGameCall (data_from d) (opponent_of (data_from d) g3)
            "NO_CARDS" d]
    /\ store r = <[data_gameId d := g3]> gameStates
    /\ length (hand_of (data_from d) g3) = 1%nat
    /\ currentTurn g3 = currentTurn gameState
    /\ turnExpiresAt g3 = turnExpiresAt gameState.
Proof.
  intros gameStates d gameState hand pre post action g2 g3 cut isCut
    Hgame Hplayer Hplays Hpre Hplay r.
  pose proof (draw_phase_frame (set_waitTimeout None gameState) d) as Hdraw.
  pose proof (play_loop_frame (data_from d) (data_newSuit d) pre
                (fst (fst (drawPhase env (set_waitTimeout None gameState) d)))
                false) as Hloop.
  pose proof (play_action_fields g2 (data_from d) (card action)
                (data_newSuit d)) as Hact.
  rewrite Hpre in Hloop. rewrite Hplay in Hact. simpl in Hdraw, Hloop, Hact.
  destruct Hdraw as (Hok & Ht1 & He1).
  destruct Hloop as (_ & Ht2 & He2).
  destruct Hact as (_ & _ & _ & _ & Ht3 & He3 & Hlen).
  subst r. unfold handleMove. rewrite Hgame, Hplayer.
  fold (plays_of d). rewrite Hplays.
  destruct (drawPhase env (set_waitTimeout None gameState) d)
    as [[g1 success] reshuffled].
  simpl in Hok, Hpre, Ht1, He1, Ht2, He2. subst success. simpl negb. cbv iota.
  rewrite (play_loop_app _ _ _ _ _ _ _ _ Hpre). cbn [playLoop].
  rewrite card_eta, Hplay. simpl.
  repeat split; congruence.
Qed.

(** *** The notification and the penalty count *)

Lemma same_piles_refl (g : GameState) : same_piles g g.
Proof. unfold same_piles. auto. Qed.

Lemma same_piles_trans (g1 g2 g3 : GameState) :
  same_piles g1 g2 -> same_piles g2 g3 -> same_piles g1 g3.
Proof. unfold same_piles. intuition congruence. Qed.

Lemma notify_card_piles (newSuit : option string) (g : GameState)
    (c : MoveCard) :
  same_piles g (notifyCard newSuit g c).
Proof.
  unfold notifyCard, same_piles.
  destruct (String.eqb (kind c) "DRAW"); [auto |].
  destruct (truthy newSuit); simpl; auto.
Qed.

Lemma notify_cards_piles (newSuit : option string) (cs : list MoveCard) :
  forall g : GameState, same_piles g (fold_left (notifyCard newSuit) cs g).
Proof.
  induction cs as [| c cs IH]; intros g; [apply same_piles_refl |].
  simpl. eapply same_piles_trans; [apply notify_card_piles | apply IH].
Qed.

(** The notification changes neither hands, piles nor penalty count,
    and every message it sends carries the penalty count it found. *)
Lemma notify_players_spec (d : Data) (reshuffled : bool)
    (ids : list string) :
  forall g : GameState,
    same_piles g (fst (notifyPlayers env d reshuffled ids g))
    /\ forall e : Event,
         In e (snd (notifyPlayers env d reshuffled ids g)) ->
         exists (playerId : string) (moveData : MoveData),
           e = ClientSend playerId moveData
           /\ snap_activePenaltyCount (md_gameState moveData)
              = activePenaltyCount g.
Proof.
  induction ids as [| playerId ids IH]; intros g.
  - simpl. split; [apply same_piles_refl | contradiction].
  - cbn [notifyPlayers].
    pose proof (notify_cards_piles (data_newSuit d) (data_cards d) g) as Hg1.
    set (g1 := fold_left (notifyCard (data_newSuit d)) (data_cards d) g) in *.
    destruct (IH g1) as [Hpiles Hsent].
    destruct (notifyPlayers env d reshuffled ids g1) as [g2 more].
    simpl in Hpiles, Hsent |- *.
    split; [eapply same_piles_trans; eassumption |].
    intros e He. apply in_app_or in He. destruct He as [He | He].
    + destruct (decide (playerId ∈ clients env)); [| contradiction].
      destruct He as [<- | []]. eexists _, _. split; [reflexivity |].
      simpl. apply Hg1.
    + destruct (Hsent e He) as (pid & md & -> & Hcount).
      exists pid, md. split; [reflexivity |].
      rewrite Hcount. apply Hg1.
Qed.

(** *** Hands and piles through a turn *)

(** Changing one hand changes the cards of all hands by that hand. *)
Lemma players_alter_hands (f : list Card -> list Card) (id : string)
    (ps : Players) (hand : list Card) :
  players_get id ps = Some hand ->
  exists others : list Card,
    Permutation (concat (map snd ps)) (hand ++ others)
    /\ Permutation (concat (map snd (players_alter f id ps)))
         (f hand ++ others).
Proof.
  induction ps as [| [k h] ps IH]; [discriminate |].
  cbn [players_get players_alter].
  destruct (String.eqb k id).
  - intros [= ->]. exists (concat (map snd ps)). split; reflexivity.
  - intros Hget. destruct (IH Hget) as (others & Hall & Haltered).
    exists (h ++ others). cbn [map concat snd].
    rewrite Hall, Haltered. split; solve_Permutation.
Qed.

Lemma players_get_alter (f : list Card -> list Card) (id : string)
    (ps : Players) :
  players_get id (players_alter f id ps) = f <$> players_get id ps.
Proof.
  induction ps as [| [k h] ps IH]; [reflexivity |].
  cbn [players_get players_alter].
  destruct (String.eqb k id) eqn:Hk; cbn [players_get]; rewrite Hk;
    [reflexivity | exact IH].
Qed.

(** The replenishment moves cards between the two piles only. *)
Lemma reshuffle_conserves (g : GameState) :
  let g' := fst (fst (handleDeckReshuffle env g)) in
  players g' = players g
  /\ Permutation (deck g' ++ playedCards g') (deck g ++ playedCards g).
Proof.
  destruct (snd (fst (handleDeckReshuffle env g))) eqn:Hr.
  - destruct (reshuffle_triggered g Hr) as (top & rest & Hp & ->).
    simpl. split; [reflexivity |].
    rewrite Hp, (shuffle_permutes rest). solve_Permutation.
  - rewrite (reshuffle_not_triggered g Hr). simpl. split; reflexivity.
Qed.

(** Drawn cards that [every] finds equal to the top cards from index
    [i] on are those top cards. *)
Lemma every_matches_take (drawn top : list Card) :
  forall i : nat,
    every_matches i drawn top = true ->
    take (length drawn) (drop i top) = drawn.
Proof.
  induction drawn as [| c drawn IH]; intros i; [reflexivity |].
  cbn [every_matches].
  destruct (top !! i) as [deckCard |] eqn:Hi; [| discriminate].
  intros Hm. apply andb_true_iff in Hm. destruct Hm as [Hc Hrest].
  apply card_eqb_eq in Hc. subst deckCard.
  rewrite (drop_S _ _ _ Hi). cbn [length take].
  rewrite (IH _ Hrest). reflexivity.
Qed.

(** Validated draws are the cards [splice] takes off the deck. *)
Lemma validated_draws_are_top (deckCards drawn : list Card) :
  drawn <> [] ->
  validateDrawnCards deckCards drawn = true ->
  deckCards = splice_last (length drawn) deckCards ++ drawn.
Proof.
  intros Hne. unfold validateDrawnCards, slice_last, splice_last.
  destruct (length deckCards <? length drawn)%nat eqn:Hlen; [discriminate |].
  apply Nat.ltb_ge in Hlen.
  destruct drawn as [| c drawn]; [contradiction |].
  set (n := length (c :: drawn)) in *. cbn [length] in n.
  change (match n with
          | O => deckCards
          | S _ => drop (length deckCards - n) deckCards
          end) with (drop (length deckCards - n) deckCards).
  change (match n with
          | O => []
          | S _ => take (length deckCards - n) deckCards
          end) with (take (length deckCards - n) deckCards).
  intros Hm. apply every_matches_take in Hm. rewrite drop_0 in Hm.
  rewrite take_ge in Hm by (rewrite length_drop; subst n; cbn [length]; lia).
  rewrite <- Hm. symmetry. apply take_drop.
Qed.

Lemma draws_length (d : Data) :
  length (List.filter (fun c => String.eqb (kind c) "DRAW") (data_cards d))
  = length (draws_of d).
Proof. unfold draws_of. rewrite length_map. reflexivity. Qed.

(** Without draw actions the draw phase does nothing. *)
Lemma draw_phase_no_draws (g : GameState) (d : Data) :
  draws_of d = [] -> drawPhase env g d = (g, true, false).
Proof.
  intros Hnone. unfold drawPhase. rewrite draws_length, Hnone. reflexivity.
Qed.

(** A draw phase whose claimed cards are the top of the deck moves
    those cards from the deck to the actor's hand. *)
Lemma draw_phase_conserves (g : GameState) (d : Data) (hand : list Card) :
  players_get (data_from d) (players g) = Some hand ->
  validateDrawnCards (deck (fst (fst (handleDeckReshuffle env g))))
    (draws_of d) = true ->
  let g' := fst (fst (drawPhase env g d)) in
  Permutation (all_cards g') (all_cards g)
  /\ players_get (data_from d) (players g') = Some (hand ++ draws_of d).
Proof.
  intros Hhand Hvalid.
  destruct (draws_of d) as [| c cs] eqn:Hdraws.
  - rewrite (draw_phase_no_draws g d Hdraws). simpl.
    rewrite app_nil_r. split; [reflexivity | exact Hhand].
  - unfold drawPhase. rewrite draws_length.
    change (map (fun action => mkCard (v (card action)) (s (card action)))
              (List.filter (fun c => String.eqb (kind c) "DRAW")
                 (data_cards d))) with (draws_of d).
    rewrite Hdraws. cbn [length Nat.ltb Nat.leb]. unfold processDrawAction.
    pose proof (reshuffle_conserves g) as Hresh.
    destruct (handleDeckReshuffle env g) as [[g1 reshuffled] count].
    simpl in Hresh, Hvalid |- *. destruct Hresh as [Hplayers Hpiles].
    rewrite Hplayers.
    destruct (players_alter_hands (fun h => h ++ c :: cs) (data_from d)
                (players g) hand Hhand) as (others & Hall & Haltered).
    assert (Hdeck : deck g1
                    = splice_last (length (c :: cs)) (deck g1) ++ c :: cs)
      by (apply validated_draws_are_top; [discriminate | exact Hvalid]).
    unfold splice_last in Hdeck. cbn [length] in Hdeck.
    set (rest := take (length (deck g1) - S (length cs)) (deck g1)) in *.
    clearbody rest.
    split.
    + unfold all_cards. simpl. rewrite Haltered, Hall, <- Hpiles, Hdeck.
      solve_Permutation.
    + rewrite players_get_alter, Hhand. reflexivity.
Qed.

Lemma filter_split {A} (p : A -> bool) (l : list A) :
  Permutation l (List.filter p l ++ List.filter (fun x => negb (p x)) l).
Proof.
  induction l as [| x l IH]; [reflexivity |].
  cbn [List.filter]. destruct (p x); cbn [negb app].
  - apply perm_skip. exact IH.
  - rewrite IH at 1. apply Permutation_middle.
Qed.

(** A hand that holds a card once is that card and the rest. *)
Lemma held_once (a : Card) (hand : list Card) :
  count_card a hand = 1%nat ->
  Permutation hand (a :: List.filter (fun c => negb (card_eqb c a)) hand).
Proof.
  unfold count_card. intros Hcount.
  rewrite (filter_split (fun c => card_eqb c a) hand) at 1.
  destruct (List.filter (fun c => card_eqb c a) hand) as [| x [| y l]] eqn:Hf;
    try discriminate.
  assert (Hx : In x (List.filter (fun c => card_eqb c a) hand))
    by (rewrite Hf; left; reflexivity).
  apply List.filter_In in Hx. destruct Hx as [_ Hx].
  apply card_eqb_eq in Hx. subst x. reflexivity.
Qed.

(** Playing a card the actor holds once moves it from the hand to the
    played cards. *)
Lemma play_action_conserves (g : GameState) (from : string) (a : Card)
    (newSuit : option string) (hand : list Card) :
  players_get from (players g) = Some hand ->
  count_card a hand = 1%nat ->
  let hand' := List.filter (fun c => negb (card_eqb c a)) hand in
  let g' := fst (fst (processPlayAction g from a newSuit)) in
  Permutation (all_cards g') (all_cards g)
  /\ players_get from (players g') = Some hand'
  /\ snd (processPlayAction g from a newSuit) = length hand'.
Proof.
  intros Hhand Hcount hand' g'.
  destruct (play_action_fields g from a newSuit)
    as (Hplayers & Hdeck & Hplayed & _ & _ & _ & Hlen).
  fold g' in Hplayers, Hdeck, Hplayed, Hlen.
  assert (Hget : players_get from (players g') = Some hand').
  { rewrite Hplayers, players_get_alter, Hhand. reflexivity. }
  split; [| split; [exact Hget |]].
  - destruct (players_alter_hands
                (List.filter (fun c => negb (card_eqb c a))) from
                (players g) hand Hhand) as (others & Hall & Haltered).
    unfold all_cards. rewrite Hplayers, Hdeck, Hplayed.
    change (fun c : Card => negb ((v c =? v a) && String.eqb (s c) (s a)))
      with (fun c : Card => negb (card_eqb c a)).
    rewrite Haltered, Hall. rewrite (held_once a hand Hcount) at 2.
    fold hand'. solve_Permutation.
  - rewrite Hlen. unfold hand_of. rewrite Hget. reflexivity.
Qed.

Lemma play_loop_conserves (from : string) (newSuit : option string)
    (plays : list MoveCard) :
  forall (g : GameState) (hand : list Card) (cut : bool),
    players_get from (players g) = Some hand ->
    plays_held hand (map card plays) = true ->
    Permutation (all_cards (fst (fst (playLoop g from plays newSuit cut))))
      (all_cards g).
Proof.
  induction plays as [| a rest IH]; intros g hand cut Hhand Hheld;
    [reflexivity |].
  cbn [map plays_held] in Hheld. apply andb_true_iff in Hheld.
  destruct Hheld as [Hcount Hrest]. apply Nat.eqb_eq in Hcount.
  cbn [playLoop]. rewrite card_eta.
  destruct (play_action_conserves g from (card a) newSuit hand Hhand Hcount)
    as (Hperm & Hget & Hlen).
  destruct (processPlayAction g from (card a) newSuit) as [[g1 isCut] n].
  simpl in Hperm, Hget, Hlen. subst n.
  destruct (length (List.filter (fun c => negb (card_eqb c (card a))) hand)
            =? 1)%nat.
  - exact Hperm.
  - rewrite (IH g1 _ _ Hget Hrest). exact Hperm.
Qed.

(** With the game and the actor found, the handler stores a state with
    the hands and the piles the play loop left, whichever way it
    returns. *)
Lemma stored_after_plays (gameStates : gmap string GameState) (d : Data)
    (gameState : GameState) (hand : list Card) :
  gameStates !! data_gameId d = Some gameState ->
  players_get (data_from d) (players gameState) = Some hand ->
  exists g' : GameState,
    store (handleMove env gameStates d) !! data_gameId d = Some g'
    /\ players g' = players (after_plays env gameState d)
    /\ deck g' = deck (after_plays env gameState d)
    /\ playedCards g' = playedCards (after_plays env gameState d).
Proof.
  intros Hgame Hplayer. unfold handleMove, after_plays.
  rewrite Hgame, Hplayer. fold (plays_of d).
  destruct (draw_phase_frame (set_waitTimeout None gameState) d)
    as (Hok & _).
  destruct (drawPhase env (set_waitTimeout None gameState) d)
    as [[g1 success] reshuffled].
  simpl in Hok. subst success. simpl negb. cbv iota. simpl fst.
  destruct (playLoop g1 (data_from d) (plays_of d) (data_newSuit d) false)
    as [[g2 cut] won].
  simpl fst.
  destruct won; [exists g2; simpl; rewrite lookup_insert_eq; auto |].
  destruct cut.
  { destruct (playerCardSums g2) as [| p1 [| p2 ps]];
      exists g2; simpl; rewrite lookup_insert_eq; auto. }
  set (g4 := set_turnExpiresAt (dateNow env + PLAY_TIMEOUT_DURATION env)
               (set_currentTurn (data_to d) g2)).
  destruct (notify_players_spec d reshuffled (players_keys (players g4)) g4)
    as [(Hp & Hd & Hpl & _) _].
  destruct (notifyPlayers env d reshuffled (players_keys (players g4)) g4)
    as [g5 sends].
  simpl in Hp, Hd, Hpl |- *. rewrite lookup_insert_eq.
  eexists. split; [reflexivity |].
  destruct (activePenaltyCount g5 =? 0); simpl; auto.
Qed.

(** *** Conservation of the cards *)

(** C2, amended.  A turn of [handleMove] (game and actor found) keeps
    the cards of the game, all hands together with the deck and the
    played cards, the same up to order, when the cards claimed as drawn
    are the top cards of the deck, as it stands after the replenishment
    check, and each card played is held exactly once by the actor when
    it is played (the hand being the actor's hand followed by the cards
    drawn). *)
Theorem cards_conserved :
  forall (gameStates : gmap string GameState) (d : Data)
         (gameState : GameState) (hand : list Card),
    gameStates !! data_gameId d = Some gameState ->
    players_get (data_from d) (players gameState) = Some hand ->
    validateDrawnCards (deck_at_draw env gameState) (draws_of d) = true ->
    plays_held (hand ++ draws_of d) (map card (plays_of d)) = true ->
    exists g' : GameState,
      store (handleMove env gameStates d) !! data_gameId d = Some g'
      /\ Permutation (all_cards g') (all_cards gameState).
Proof.
  intros gameStates d gameState hand Hgame Hplayer Hdraws Hplays.
  destruct (stored_after_plays gameStates d gameState hand Hgame Hplayer)
    as (g' & Hstore & Hp & Hd & Hpl).
  exists g'. split; [exact Hstore |].
  unfold all_cards at 1. rewrite Hp, Hd, Hpl.
  change (Permutation (all_cards (after_plays env gameState d))
            (all_cards gameState)).
  destruct (draw_phase_conserves (set_waitTimeout None gameState) d hand
              Hplayer Hdraws) as [Hdrawn Hhand].
  unfold after_plays.
  rewrite (play_loop_conserves (data_from d) (data_newSuit d) (plays_of d)
             _ _ false Hhand Hplays).
  exact Hdrawn.
Qed.

End HandleMoveProperties.

(** * The properties on the fixture of the test suite *)

Section OnTheFixture.

Import HandleMove Turn Fixture.

Lemma mock_shuffle_permutes :
  forall cs : list Card, Permutation (reshufflePlayedCards mockEnv [] cs) cs.
Proof. intros cs. simpl. symmetry. apply Permutation_rev. Qed.

(** C1, as stated, fails: a 5 of hearts on an 8 of diamonds is an
    invalid move for the rules engine in every penalty context, and the
    handler applies it, as the handler's test suite expects: the card
    leaves the hand, is the last played card and the current card, and
    the turn passes on. *)
Lemma invalid_play_is_applied :
  let played := mkCard 5 "hearts" in
  let r := handleMove mockEnv mockGameStates
             (request [mkMoveCard "PLAY" played]) in
  (forall (act : bool) (cur nxt : Z),
      let verdict :=
        Rules.getNextAction (currentCard mockGameState) played act
          (chosenSuit mockGameState) cur nxt in
      Rules.valid verdict = false
      /\ Rules.type verdict = Rules.INVALID_MOVE)
  /\ exit r = Continued
  /\ exists g' : GameState,
       store r !! "test-game-id" = Some g'
       /\ g' <> mockGameState
       /\ hand_of "player1" g' = [mkCard 7 "spades"; mkCard 2 "clubs"]
       /\ playedCards g' = [mkCard 8 "diamonds"; played]
       /\ currentCard g' = Some played
       /\ currentTurn g' = "player2".
Proof.
  cbv zeta. split; [intros act cur nxt; split; reflexivity |].
  split; [vm_compute; reflexivity |].
  eexists. split; [vm_compute; reflexivity |].
  split; [discriminate |]. vm_compute. auto.
Qed.

(** C2, as stated, fails: a played card the actor does not hold is
    added to the played cards, so the game has a card more; a played
    card the actor holds twice leaves the hand twice and is added once,
    so the game has a card less. *)
Lemma unheld_and_repeated_cards_not_conserved :
  let r1 := handleMove mockEnv mockGameStates
              (request [mkMoveCard "PLAY" (mkCard 10 "hearts")]) in
  let r2 := handleMove mockEnv {[ "test-game-id" := duplicateHandState ]}
              (request [mkMoveCard "PLAY" (mkCard 5 "hearts")]) in
  (exit r1 = Continued
   /\ exists g' : GameState,
        store r1 !! "test-game-id" = Some g'
        /\ length (all_cards g') = S (length (all_cards mockGameState))
        /\ ~ Permutation (all_cards g') (all_cards mockGameState))
  /\ (exit r2 = Continued
      /\ exists g' : GameState,
           store r2 !! "test-game-id" = Some g'
           /\ S (length (all_cards g')) = length (all_cards duplicateHandState)
           /\ ~ Permutation (all_cards g') (all_cards duplicateHandState)).
Proof.
  cbv zeta. split.
  - split; [vm_compute; reflexivity |].
    eexists. split; [vm_compute; reflexivity |].
    split; [vm_compute; reflexivity |].
    intros Hperm. apply Permutation_length in Hperm. vm_compute in Hperm.
    discriminate.
  - split; [vm_compute; reflexivity |].
    eexists. split; [vm_compute; reflexivity |].
    split; [vm_compute; reflexivity |].
    intros Hperm. apply Permutation_length in Hperm. vm_compute in Hperm.
    discriminate.
Qed.

Lemma cards_conserved_witness :
  let d := request [mkMoveCard "DRAW" (mkCard 6 "clubs");
                    mkMoveCard "PLAY" (mkCard 5 "hearts")] in
  exists g' : GameState,
    store (handleMove mockEnv mockGameStates d) !! data_gameId d = Some g'
    /\ Permutation (all_cards g') (all_cards mockGameState).
Proof.
  exact (cards_conserved mockEnv mock_shuffle_permutes mockGameStates
           (request [mkMoveCard "DRAW" (mkCard 6 "clubs");
                     mkMoveCard "PLAY" (mkCard 5 "hearts")])
           mockGameState
           [mkCard 5 "hearts"; mkCard 7 "spades"; mkCard 2 "clubs"]
           eq_refl eq_refl eq_refl eq_refl).
Defined.

(** C7: the draw of a card that is not on top of the deck.  The check
    finds the mismatch, but the handler does not run it: no error is
    sent, the top card of the deck is removed, the claimed card enters
    the hand and the turn passes on. *)
Lemma desynchronized_draw_is_applied :
  let claimed := mkCard 999 "invalid" in
  let r := handleMove mockEnv mockGameStates
             (request [mkMoveCard "DRAW" claimed]) in
  validateDrawnCards (deck mockGameState) [claimed] = false
  /\ exit r = Continued
  /\ Forall (fun e => match e with WsSendError _ => False | _ => True end)
       (events r)
  /\ exists g' : GameState,
       store r !! "test-game-id" = Some g'
       /\ deck g' = [mkCard 3 "spades"; mkCard 4 "hearts"]
       /\ hand_of "player1" g'
          = [mkCard 5 "hearts"; mkCard 7 "spades"; mkCard 2 "clubs"; claimed]
       /\ currentTurn g' = "player2".
Proof.
  cbv zeta. split; [reflexivity |].
  split; [vm_compute; reflexivity |].
  split; [vm_compute; repeat constructor |].
  eexists. split; [vm_compute; reflexivity |]. vm_compute. auto.
Qed.

Lemma reshuffle_policy_witness :
  let g' := fst (fst (handleDeckReshuffle mockEnv lowDeckState)) in
  snd (fst (handleDeckReshuffle mockEnv lowDeckState)) = true
  /\ length (deck g') = 9%nat
  /\ length (playedCards g') = 1%nat.
Proof.
  exact (proj2 (proj2 (proj2
           (reshuffle_policy mockEnv mock_shuffle_permutes lowDeckState)))
           eq_refl eq_refl).
Defined.

Lemma one_card_left_wins_witness :
  let d := request [mkMoveCard "PLAY" (mkCard 5 "hearts");
                    mkMoveCard "PLAY" (mkCard 9 "clubs")] in
  let g2 := set_waitTimeout None twoCardState in
  let g3 := fst (fst (processPlayAction g2 "player1" (mkCard 5 "hearts")
                        None)) in
  let r := handleMove mockEnv {[ "test-game-id" := twoCardState ]} d in
  exit r = WonNoCards
  /\ events r
     = [EndGameCall "player1" (opponent_of "player1" g3) "NO_CARDS" d]
  /\ store r = <["test-game-id" := g3]> {[ "test-game-id" := twoCardState ]}
  /\ length (hand_of "player1" g3) = 1%nat
  /\ currentTurn g3 = currentTurn twoCardState
  /\ turnExpiresAt g3 = turnExpiresAt twoCardState.
Proof.
  exact (one_card_left_wins mockEnv {[ "test-game-id" := twoCardState ]}
           (request [mkMoveCard "PLAY" (mkCard 5 "hearts");
                     mkMoveCard "PLAY" (mkCard 9 "clubs")])
           twoCardState [mkCard 5 "hearts"; mkCard 9 "clubs"]
           [] [mkMoveCard "PLAY" (mkCard 9 "clubs")]
           (mkMoveCard "PLAY" (mkCard 5 "hearts"))
           (set_waitTimeout None twoCardState)
           (fst (fst (processPlayAction (set_waitTimeout None twoCardState)
                        "player1" (mkCard 5 "hearts") None)))
           false false
           eq_refl eq_refl eq_refl eq_refl eq_refl).
Defined.

End OnTheFixture.

(** * Further properties of the rules engine *)

Section RulesFurther.

Import Rules.

(** Case analysis on every condition of the goal. *)
Ltac case_conditions :=
  repeat match goal with
         | |- context [if ?b then _ else _] => destruct b eqn:?
         end.

Lemma joker_suit (c : Card) :
  isJoker c = true <-> s c = RED_JOKER \/ s c = BLACK_JOKER.
Proof.
  unfold isJoker, includes_str, JOKERS. simpl.
  rewrite !orb_true_iff, !String.eqb_eq. intuition discriminate.
Qed.

(** Symmetry of matching.  With no suit selected, the joker colour rule
    and the basic match do not depend on which of the two cards is the
    played one, and a joker never colour-matches a joker. *)
Theorem matching_is_symmetric :
  forall a b : Card,
    isValidJokerMove a b None = isValidJokerMove b a None
    /\ isBasicMatch a b None = isBasicMatch b a None
    /\ (isJoker a && isJoker b = true -> isValidJokerMove a b None = false).
Proof.
  intros a b.
  assert (Hjoker : isValidJokerMove a b None = isValidJokerMove b a None
                   /\ (isJoker a && isJoker b = true ->
                       isValidJokerMove a b None = false)).
  { unfold isValidJokerMove.
    destruct (isJoker a) eqn:Ha, (isJoker b) eqn:Hb; simpl.
    - apply joker_suit in Ha, Hb.
      destruct Ha as [-> | ->], Hb as [-> | ->]; simpl; auto.
    - split; [reflexivity | discriminate].
    - split; [reflexivity | discriminate].
    - split; [reflexivity | discriminate]. }
  destruct Hjoker as [Hsym Hboth].
  split; [exact Hsym |]. split; [| exact Hboth].
  unfold isBasicMatch.
  rewrite Hsym, (Z.eqb_sym (v a)), (String.eqb_sym (s a)). reflexivity.
Qed.

(** The effect of a card is never a rejection or [PLAY_CARD], and the
    penalty it carries is 2, 3 or 5 when it carries one. *)
Lemma card_effect_shape (c : Card) (act : bool) :
  let e := getCardEffectAction c act in
  ce_type e <> INVALID_MOVE /\ ce_type e <> PLAY_CARD
  /\ ce_type e <> REDUCE_PENALTY /\ ce_type e <> TRANSFER_PENALTY
  /\ In (default 0 (ce_penaltyCards e)) [0; 2; 3; 5].
Proof.
  unfold getCardEffectAction. case_conditions; simpl;
    repeat split; try discriminate; auto 6.
Qed.

Lemma penalty_action_shape (played prev : Card) (cur : Z)
    (sel : option string) :
  let p := calculatePenaltyAction played prev cur sel in
  pa_type p <> INVALID_MOVE /\ pa_type p <> PLAY_CARD.
Proof.
  unfold calculatePenaltyAction. cbv zeta.
  destruct (card_effect_shape played false) as (H1 & H2 & _).
  case_conditions; simpl; auto; split; discriminate.
Qed.

(** The [valid] flag on a previous card. *)
Lemma valid_on_previous (prev played : Card) (act : bool)
    (sel : option string) (cur nxt : Z) :
  valid (getNextAction (Some prev) played act sel cur nxt)
  = isValidMove played prev sel
    && (negb (act && (cur >? 0))
        || isMasterCard played
        || (isPenaltyCard played && isBasicMatch played prev sel)).
Proof.
  unfold getNextAction.
  destruct (isValidMove played prev sel); [| reflexivity].
  simpl negb. cbv iota.
  destruct (act && (cur >? 0)); [| case_conditions; reflexivity].
  destruct (isMasterCard played); [reflexivity |].
  destruct (isPenaltyCard played && isBasicMatch played prev sel);
    reflexivity.
Qed.

(** The verdict and its [valid] flag.  A first move is always valid.
    On a previous card a move is valid exactly when it passes the
    legality gate and, with a penalty active, is the master card or a
    penalty card that is a basic match.  The flag is false exactly for
    the type [INVALID_MOVE]; a rejection hands back the two counts it
    was given and asks for no draw; [PLAY_CARD] is never answered. *)
Theorem verdict_validity :
  (forall (played : Card) (act : bool) (sel : option string) (cur nxt : Z),
      valid (getNextAction None played act sel cur nxt) = true)
  /\ (forall (prev played : Card) (act : bool) (sel : option string)
             (cur nxt : Z),
         valid (getNextAction (Some prev) played act sel cur nxt)
         = isValidMove played prev sel
           && (negb (act && (cur >? 0))
               || isMasterCard played
               || (isPenaltyCard played && isBasicMatch played prev sel)))
  /\ (forall (prev : option Card) (played : Card) (act : bool)
             (sel : option string) (cur nxt : Z),
         let r := getNextAction prev played act sel cur nxt in
         (valid r = false <-> type r = INVALID_MOVE)
         /\ type r <> PLAY_CARD
         /\ (valid r = false ->
             nextPlayerPenaltyCount r = nxt
             /\ currentPenaltyCount r = cur
             /\ drawCards r = None /\ penaltyCards r = None)).
Proof.
  split; [reflexivity |]. split.
  - intros prev played act sel cur nxt. apply valid_on_previous.
  - intros prev played act sel cur nxt r. subst r.
    pose proof (card_effect_shape played act) as (E1 & E2 & _).
    pose proof (fun prev => penalty_action_shape played prev cur sel) as P.
    unfold getNextAction.
    destruct prev as [prev |];
      [destruct (P prev) as (P1 & P2) |];
      case_conditions; simpl; intuition congruence.
Qed.

Lemma penalty_weight_positive (c : Card) :
  isPenaltyCard c = true -> 0 < getCardPenaltyValue c.
Proof.
  unfold isPenaltyCard, getCardPenaltyValue, includes_num, PENALTY_VALUES.
  destruct (isJoker c); [reflexivity |]. simpl.
  rewrite orb_false_r, !orb_true_iff, !Z.eqb_eq. unfold TWO, THREE. lia.
Qed.

Lemma effect_penalty_bounds (c : Card) (act : bool) :
  0 <= default 0 (ce_penaltyCards (getCardEffectAction c act)) <= 5.
Proof.
  destruct (card_effect_shape c act) as (_ & _ & _ & _ & Hin).
  simpl in Hin. lia.
Qed.

(** The counts of a valid verdict.  Neither count is negative and at
    most one of them is not 0, so a verdict never charges both players.
    Only [REDUCE_PENALTY] leaves the acting player a count: it is less
    than the pending count and is the number of cards to draw. *)
Theorem verdict_counts :
  forall (prev : option Card) (played : Card) (act : bool)
         (sel : option string) (cur nxt : Z),
    let r := getNextAction prev played act sel cur nxt in
    valid r = true ->
    0 <= nextPlayerPenaltyCount r
    /\ 0 <= currentPenaltyCount r
    /\ (nextPlayerPenaltyCount r = 0 \/ currentPenaltyCount r = 0)
    /\ (type r = REDUCE_PENALTY ->
        currentPenaltyCount r < cur
        /\ nextPlayerPenaltyCount r = 0
        /\ drawCards r = Some (currentPenaltyCount r))
    /\ (type r <> REDUCE_PENALTY ->
        currentPenaltyCount r = 0 /\ drawCards r = None).
Proof.
  intros prev played act sel cur nxt r. subst r.
  pose proof (effect_penalty_bounds played act) as Hact.
  pose proof (effect_penalty_bounds played false) as Hfalse.
  pose proof (card_effect_shape played act) as (_ & _ & Eact & _).
  pose proof (card_effect_shape played false) as (_ & _ & Efalse & _).
  assert (Heffect : forall n : Z, 0 <= n ->
            let r := spreadEffect n 0 (getCardEffectAction played act) in
            0 <= nextPlayerPenaltyCount r
            /\ 0 <= currentPenaltyCount r
            /\ (nextPlayerPenaltyCount r = 0 \/ currentPenaltyCount r = 0)
            /\ (type r = REDUCE_PENALTY ->
                currentPenaltyCount r < cur
                /\ nextPlayerPenaltyCount r = 0
                /\ drawCards r = Some (currentPenaltyCount r))
            /\ (type r <> REDUCE_PENALTY ->
                currentPenaltyCount r = 0 /\ drawCards r = None)).
  { intros n Hn. simpl. split; [lia |]. split; [lia |].
    split; [right; reflexivity |].
    split; [intros Hred; contradiction | intros _; split; reflexivity]. }
  unfold getNextAction.
  destruct prev as [prev |]; [| intros _; apply Heffect; lia].
  destruct (isValidMove played prev sel); [| discriminate].
  simpl negb. cbv iota.
  destruct (act && (cur >? 0)) eqn:Hbranch.
  - apply andb_true_iff in Hbranch. destruct Hbranch as [_ Hcur].
    apply Z.gtb_lt in Hcur.
    destruct (isMasterCard played); [intros _; apply Heffect; lia |].
    destruct (isPenaltyCard played && isBasicMatch played prev sel)
      eqn:Hpen; [| discriminate].
    apply andb_true_iff in Hpen. destruct Hpen as [Hpen _].
    apply penalty_weight_positive in Hpen. intros _.
    unfold calculatePenaltyAction. cbv zeta.
    set (W := getCardPenaltyValue played) in *.
    case_conditions; simpl;
      repeat split; try discriminate; try contradiction; auto; try lia.
  - intros _. destruct (isAce played || isJoker played);
      apply Heffect; lia.
Qed.

Lemma verdict_counts_witness :
  let r := getNextAction (Some (mkCard 50 "B")) (mkCard 3 "S") true None
             5 0 in
  0 <= nextPlayerPenaltyCount r
  /\ 0 <= currentPenaltyCount r
  /\ (nextPlayerPenaltyCount r = 0 \/ currentPenaltyCount r = 0)
  /\ (type r = REDUCE_PENALTY ->
      currentPenaltyCount r < 5
      /\ nextPlayerPenaltyCount r = 0
      /\ drawCards r = Some (currentPenaltyCount r))
  /\ (type r <> REDUCE_PENALTY ->
      currentPenaltyCount r = 0 /\ drawCards r = None).
Proof.
  exact (verdict_counts (Some (mkCard 50 "B")) (mkCard 3 "S") true None 5 0
           eq_refl).
Defined.

(** With a penalty active, a card that is neither a penalty card nor
    the master card is rejected, whatever it matches, and the two
    counts come back as given. *)
Theorem active_penalty_needs_counter :
  forall (prev played : Card) (sel : option string) (cur nxt : Z),
    0 < cur ->
    isPenaltyCard played = false ->
    isMasterCard played = false ->
    let r := getNextAction (Some prev) played true sel cur nxt in
    valid r = false
    /\ type r = INVALID_MOVE
    /\ nextPlayerPenaltyCount r = nxt
    /\ currentPenaltyCount r = cur.
Proof.
  intros prev played sel cur nxt Hcur Hpen Hmaster r. subst r.
  unfold getNextAction.
  assert (Hgt : (cur >? 0) = true) by (apply Z.gtb_lt; lia).
  rewrite Hgt, Hpen, Hmaster.
  destruct (isValidMove played prev sel); simpl; auto.
Qed.

Lemma active_penalty_needs_counter_witness :
  let r := getNextAction (Some (mkCard 2 "H")) (mkCard 7 "H") true None 2 0 in
  valid r = false
  /\ type r = INVALID_MOVE
  /\ nextPlayerPenaltyCount r = 0
  /\ currentPenaltyCount r = 2.
Proof.
  apply (active_penalty_needs_counter (mkCard 2 "H") (mkCard 7 "H") None 2 0);
    [lia | reflexivity | reflexivity].
Defined.

(** An Ace that is not a joker is legal on every card, under every
    selected suit, as long as no penalty is active; with a penalty
    active only the Ace of spades is. *)
Theorem ace_legality :
  forall (prev played : Card) (act : bool) (sel : option string)
         (cur nxt : Z),
    isAce played = true ->
    isJoker played = false ->
    valid (getNextAction (Some prev) played act sel cur nxt)
    = negb (act && (cur >? 0)) || isMasterCard played.
Proof.
  intros prev played act sel cur nxt Hace Hjoker.
  rewrite valid_on_previous.
  assert (Hgate : isValidMove played prev sel = true)
    by (unfold isValidMove; rewrite Hace; apply orb_true_r).
  assert (Hpen : isPenaltyCard played = false).
  { unfold isPenaltyCard. rewrite Hjoker, orb_false_r.
    unfold isAce in Hace. apply Z.eqb_eq in Hace. rewrite Hace.
    reflexivity. }
  rewrite Hgate, Hpen. simpl. rewrite orb_false_r. reflexivity.
Qed.

Lemma ace_legality_witness :
  valid (getNextAction (Some (mkCard 7 "C")) (mkCard 15 "H") true
           (Some "D") 3 0)
  = negb (true && (3 >? 0)) || isMasterCard (mkCard 15 "H").
Proof.
  apply (ace_legality (mkCard 7 "C") (mkCard 15 "H") true (Some "D") 3 0);
    reflexivity.
Defined.

(** The conditions of [calculatePenaltyAction] on a previous penalty
    card of another weight than the played card's. *)
Lemma weight_comparisons (prev played : Card) :
  getCardPenaltyValue prev <> getCardPenaltyValue played ->
  (getCardPenaltyValue prev =? getCardPenaltyValue played) = false
  /\ (getCardPenaltyValue prev >? getCardPenaltyValue played)
     = negb (getCardPenaltyValue prev <? getCardPenaltyValue played).
Proof.
  intros Hne. split; [apply Z.eqb_neq; exact Hne |].
  rewrite Z.gtb_ltb.
  destruct (Z.ltb_spec (getCardPenaltyValue played) (getCardPenaltyValue prev)),
    (Z.ltb_spec (getCardPenaltyValue prev) (getCardPenaltyValue played));
    simpl; try reflexivity; lia.
Qed.

(** Same suit, previous weaker.  With a penalty active, a penalty card
    of the reference suit played on a strictly weaker penalty card
    replaces the penalty: the next player's count is the played card's
    weight, not the sum, and the acting player owes nothing. *)
Theorem weaker_previous_same_suit_transfers :
  forall (prev played : Card) (sel : option string) (cur nxt : Z),
    isPenaltyCard prev = true ->
    isPenaltyCard played = true ->
    referenceSuitOf sel prev = s played ->
    getCardPenaltyValue prev < getCardPenaltyValue played ->
    0 < cur ->
    let r := getNextAction (Some prev) played true sel cur nxt in
    valid r = true
    /\ type r = TRANSFER_PENALTY
    /\ nextPlayerPenaltyCount r = getCardPenaltyValue played
    /\ currentPenaltyCount r = 0
    /\ drawCards r = None.
Proof.
  intros prev played sel cur nxt Hprev Hplayed Hsuit Hw Hcur r. subst r.
  rewrite penalty_branch_delegates
    by (try assumption; now apply reference_suit_basic_match).
  destruct (weight_comparisons prev played) as [Hne Hgt]; [lia |].
  assert (Hlt : (getCardPenaltyValue prev <? getCardPenaltyValue played)
                = true) by (apply Z.ltb_lt; lia).
  unfold calculatePenaltyAction.
  rewrite Hprev, Hsuit, String.eqb_refl, Hne, Hlt. simpl. auto.
Qed.

Lemma weaker_previous_same_suit_transfers_witness :
  let r := getNextAction (Some (mkCard 2 "H")) (mkCard 3 "H") true None 2 0 in
  valid r = true
  /\ type r = TRANSFER_PENALTY
  /\ nextPlayerPenaltyCount r = getCardPenaltyValue (mkCard 3 "H")
  /\ currentPenaltyCount r = 0
  /\ drawCards r = None.
Proof.
  apply (weaker_previous_same_suit_transfers (mkCard 2 "H") (mkCard 3 "H")
           None 2 0);
    [reflexivity | reflexivity | reflexivity | vm_compute; reflexivity | lia].
Defined.

(** Joker colour match across suits.  With a penalty active, a penalty
    card that is a basic match, is not of the reference suit and
    matches the previous penalty card by joker colour adds its weight
    to the pending count for the next player when the previous card is
    weaker, and takes its weight off the pending count, which the
    acting player draws, when the previous card is stronger. *)
Theorem colour_match_stacks_or_reduces :
  forall (prev played : Card) (sel : option string) (cur nxt : Z),
    isPenaltyCard prev = true ->
    isPenaltyCard played = true ->
    isBasicMatch played prev sel = true ->
    String.eqb (referenceSuitOf sel prev) (s played) = false ->
    isValidJokerMove played prev sel = true ->
    getCardPenaltyValue prev <> getCardPenaltyValue played ->
    0 < cur ->
    let r := getNextAction (Some prev) played true sel cur nxt in
    let W := getCardPenaltyValue played in
    valid r = true
    /\ (getCardPenaltyValue prev < W ->
        type r = TRANSFER_PENALTY
        /\ nextPlayerPenaltyCount r = cur + W
        /\ currentPenaltyCount r = 0)
    /\ (W < getCardPenaltyValue prev ->
        type r = REDUCE_PENALTY
        /\ nextPlayerPenaltyCount r = 0
        /\ currentPenaltyCount r = Z.max (cur - W) 0
        /\ drawCards r = Some (Z.max (cur - W) 0)).
Proof.
  intros prev played sel cur nxt Hprev Hplayed Hmatch Hsuit Hcolour Hne Hcur
    r W. subst r W.
  rewrite penalty_branch_delegates by assumption.
  destruct (weight_comparisons prev played Hne) as [Heq Hgt].
  unfold calculatePenaltyAction.
  rewrite Hprev, Hsuit, Hcolour, Heq, Hgt. cbn [andb].
  split; [reflexivity |]. split; intros Hw.
  - assert (Hlt : (getCardPenaltyValue prev <? getCardPenaltyValue played)
                  = true) by (apply Z.ltb_lt; lia).
    rewrite Hlt. simpl. auto.
  - assert (Hlt : (getCardPenaltyValue prev <? getCardPenaltyValue played)
                  = false) by (apply Z.ltb_ge; lia).
    rewrite Hlt. simpl. auto.
Qed.

Lemma colour_match_stacks_or_reduces_witness :
  let r := getNextAction (Some (mkCard 2 "H")) (mkCard 50 "R") true None 2 0 in
  let W := getCardPenaltyValue (mkCard 50 "R") in
  valid r = true
  /\ (getCardPenaltyValue (mkCard 2 "H") < W ->
      type r = TRANSFER_PENALTY
      /\ nextPlayerPenaltyCount r = 2 + W
      /\ currentPenaltyCount r = 0)
  /\ (W < getCardPenaltyValue (mkCard 2 "H") ->
      type r = REDUCE_PENALTY
      /\ nextPlayerPenaltyCount r = 0
      /\ currentPenaltyCount r = Z.max (2 - W) 0
      /\ drawCards r = Some (Z.max (2 - W) 0)).
Proof.
  apply (colour_match_stacks_or_reduces (mkCard 2 "H") (mkCard 50 "R")
           None 2 0);
    [reflexivity | reflexivity | reflexivity | reflexivity | reflexivity
    | vm_compute; discriminate | lia].
Defined.

(** A previous card that is no penalty card.  With a penalty active, a
    penalty card that is a basic match on a card that is not a penalty
    card adds its own penalty to the pending count for the next player:
    5 for a joker (which also asks for a suit) and for a card of value
    50, else the value of the card. *)
Theorem penalty_on_plain_card_accumulates :
  forall (prev played : Card) (sel : option string) (cur nxt : Z),
    isPenaltyCard prev = false ->
    isPenaltyCard played = true ->
    isBasicMatch played prev sel = true ->
    0 < cur ->
    let r := getNextAction (Some prev) played true sel cur nxt in
    valid r = true
    /\ type r = (if isJoker played then CHOOSE_SUIT else APPLY_PENALTY)
    /\ nextPlayerPenaltyCount r
       = cur + (if isJoker played then 5
                else if v played =? 50 then 5 else v played)
    /\ currentPenaltyCount r = 0.
Proof.
  intros prev played sel cur nxt Hprev Hplayed Hmatch Hcur r. subst r.
  rewrite penalty_branch_delegates by assumption.
  unfold calculatePenaltyAction. rewrite Hprev. cbn [andb].
  rewrite !andb_false_r. cbv zeta.
  unfold isPenaltyCard in Hplayed.
  destruct (isJoker played) eqn:Hjoker.
  - rewrite (joker_effect _ _ Hjoker). simpl. auto.
  - rewrite orb_false_r in Hplayed.
    unfold includes_num, PENALTY_VALUES in Hplayed. simpl in Hplayed.
    rewrite orb_false_r, !orb_true_iff, !Z.eqb_eq in Hplayed.
    unfold getCardEffectAction, isMasterCard, isAce. rewrite Hjoker.
    destruct Hplayed as [-> | [-> | ->]]; simpl; auto.
Qed.

Lemma penalty_on_plain_card_accumulates_witness :
  let r := getNextAction (Some (mkCard 15 "H")) (mkCard 3 "D") true
             (Some "D") 5 0 in
  valid r = true
  /\ type r = (if isJoker (mkCard 3 "D") then CHOOSE_SUIT else APPLY_PENALTY)
  /\ nextPlayerPenaltyCount r
     = 5 + (if isJoker (mkCard 3 "D") then 5
            else if 3 =? 50 then 5 else 3)
  /\ currentPenaltyCount r = 0.
Proof.
  apply (penalty_on_plain_card_accumulates (mkCard 15 "H") (mkCard 3 "D")
           (Some "D") 5 0); [reflexivity | reflexivity | reflexivity | lia].
Defined.

(** The plain card effects.  Outside the active-penalty branch a legal
    card that is neither an Ace nor a joker leaves the acting player
    no count; a 2 or a 3 makes the next player draw as many cards, a
    card of value 50 five; an 8 or a Jack (11) skips one turn and
    carries no penalty; every other card ends the turn with no penalty,
    no skip and no suit choice. *)
Theorem plain_card_effects :
  forall (prev : option Card) (played : Card) (act : bool)
         (sel : option string) (cur nxt : Z),
    act && (cur >? 0) = false ->
    let r := getNextAction prev played act sel cur nxt in
    valid r = true ->
    isJoker played = false ->
    isAce played = false ->
    currentPenaltyCount r = 0
    /\ (v played = 2 \/ v played = 3 ->
        type r = APPLY_PENALTY /\ nextPlayerPenaltyCount r = v played
        /\ skipTurns r = None)
    /\ (v played = 50 ->
        type r = APPLY_PENALTY /\ nextPlayerPenaltyCount r = 5)
    /\ (v played = 8 \/ v played = 11 ->
        type r = SKIP_TURN /\ skipTurns r = Some 1
        /\ nextPlayerPenaltyCount r = 0)
    /\ (~ In (v played) [2; 3; 8; 11; 50] ->
        type r = END_TURN /\ nextPlayerPenaltyCount r = 0
        /\ skipTurns r = None /\ allowSuitChoice r = None).
Proof.
  intros prev played act sel cur nxt Hbranch r Hvalid Hjoker Hace. subst r.
  rewrite (no_penalty_branch _ _ _ _ _ _ Hbranch Hvalid). cbv zeta.
  assert (Hmaster : isMasterCard played = false)
    by (unfold isMasterCard; unfold isAce in Hace;
        change (v MASTER_CARD) with ACE; rewrite Hace; reflexivity).
  unfold getCardEffectAction. rewrite Hjoker, Hmaster, Hace. cbn [andb].
  split; [reflexivity |]. split; [| split; [| split]].
  - intros [-> | ->]; simpl; auto.
  - intros ->. simpl. auto.
  - intros [-> | ->]; simpl; auto.
  - intros Hother. simpl in Hother.
    unfold TWO, THREE, EIGHT, JACK.
    destruct (Z.eqb_spec (v played) 2); [lia |].
    destruct (Z.eqb_spec (v played) 3); [lia |].
    destruct (Z.eqb_spec (v played) 8); [lia |].
    destruct (Z.eqb_spec (v played) 11); [lia |].
    destruct (Z.eqb_spec (v played) 50); [lia |].
    simpl. auto.
Qed.

Lemma plain_card_effects_witness :
  let played := mkCard 11 "S" in
  let r := getNextAction (Some (mkCard 11 "C")) played false None 0 0 in
  currentPenaltyCount r = 0
  /\ (v played = 2 \/ v played = 3 ->
      type r = APPLY_PENALTY /\ nextPlayerPenaltyCount r = v played
      /\ skipTurns r = None)
  /\ (v played = 50 ->
      type r = APPLY_PENALTY /\ nextPlayerPenaltyCount r = 5)
  /\ (v played = 8 \/ v played = 11 ->
      type r = SKIP_TURN /\ skipTurns r = Some 1
      /\ nextPlayerPenaltyCount r = 0)
  /\ (~ In (v played) [2; 3; 8; 11; 50] ->
      type r = END_TURN /\ nextPlayerPenaltyCount r = 0
      /\ skipTurns r = None /\ allowSuitChoice r = None).
Proof.
  apply (plain_card_effects (Some (mkCard 11 "C")) (mkCard 11 "S") false
           None 0 0); reflexivity.
Defined.

End RulesFurther.

(** * Further properties of the move handler *)

Section HandleMoveFurther.

Import HandleMove Turn Observed.

Variable env : Env.

(** *** The check of the drawn cards *)

Lemma every_matches_of_take (drawn top : list Card) :
  forall i : nat,
    take (length drawn) (drop i top) = drawn ->
    every_matches i drawn top = true.
Proof.
  induction drawn as [| c drawn IH]; intros i; [reflexivity |].
  cbn [every_matches length].
  destruct (top !! i) as [deckCard |] eqn:Hi.
  - rewrite (drop_S _ _ _ Hi). cbn [take]. intros [= -> Hrest].
    rewrite (IH _ Hrest), andb_true_r. apply card_eqb_eq. reflexivity.
  - apply lookup_ge_None in Hi. rewrite drop_ge by exact Hi. discriminate.
Qed.

Lemma validate_top_iff (deckCards drawn : list Card) :
  validateDrawnCards deckCards drawn = true
  <-> exists rest : list Card, deckCards = rest ++ drawn.
Proof.
  split.
  - destruct drawn as [| c cs].
    + intros _. exists deckCards. symmetry. apply app_nil_r.
    + intros Hvalid. eexists.
      apply validated_draws_are_top; [discriminate | exact Hvalid].
  - intros [rest ->]. unfold validateDrawnCards.
    assert (Hlen : (length (rest ++ drawn) <? length drawn)%nat = false)
      by (apply Nat.ltb_ge; rewrite length_app; lia).
    rewrite Hlen. apply every_matches_of_take. rewrite drop_0.
    unfold slice_last. destruct (length drawn) eqn:Hn.
    + destruct drawn; [reflexivity | discriminate].
    + rewrite <- Hn, length_app, Nat.add_sub, drop_app_length.
      apply take_ge. lia.
Qed.

(** [validateDrawnCards] accepts exactly the claims that are the top of
    the deck, in deck order: the deck ends with the claimed cards.  An
    empty claim is accepted on every deck, and a claim of more cards
    than the deck holds is refused. *)
Theorem validate_accepts_the_top :
  forall deckCards drawn : list Card,
    (validateDrawnCards deckCards drawn = true
     <-> exists rest : list Card, deckCards = rest ++ drawn)
    /\ validateDrawnCards deckCards [] = true
    /\ ((length deckCards < length drawn)%nat ->
        validateDrawnCards deckCards drawn = false).
Proof.
  intros deckCards drawn. split; [apply validate_top_iff |].
  split; [reflexivity |].
  intros Hlen. unfold validateDrawnCards.
  apply Nat.ltb_lt in Hlen. rewrite Hlen. reflexivity.
Qed.

(** *** Replenishment, again *)

(** A second replenishment check right after a first does nothing:
    after a reshuffle one card is left played. *)
Theorem reshuffle_settles :
  forall g : GameState,
    let g' := fst (fst (handleDeckReshuffle env g)) in
    handleDeckReshuffle env g' = (g', false, 0%nat).
Proof.
  intros g g'. apply reshuffle_not_triggered. subst g'.
  destruct (snd (fst (handleDeckReshuffle env g))) eqn:Hr.
  - destruct (reshuffle_triggered env g Hr) as (top & rest & _ & ->).
    rewrite reshuffle_guard. simpl. apply andb_false_r.
  - rewrite (reshuffle_not_triggered env g Hr). exact Hr.
Qed.

(** The replenishment keeps the top of the deck: a claim of drawn cards
    that the check accepts before it is accepted after it, whatever the
    shuffle does. *)
Theorem reshuffle_keeps_the_top :
  forall (g : GameState) (drawn : list Card),
    validateDrawnCards (deck g) drawn = true ->
    validateDrawnCards (deck (fst (fst (handleDeckReshuffle env g)))) drawn
    = true.
Proof.
  intros g drawn Hvalid.
  apply (validate_top_iff (deck g) drawn) in Hvalid.
  destruct Hvalid as [rest Hdeck].
  destruct (snd (fst (handleDeckReshuffle env g))) eqn:Hr.
  - destruct (reshuffle_triggered env g Hr) as (top & played & _ & ->).
    simpl. apply validate_top_iff.
    exists (reshufflePlayedCards env [] played ++ rest).
    rewrite Hdeck, app_assoc. reflexivity.
  - rewrite (reshuffle_not_triggered env g Hr). simpl.
    apply validate_top_iff. exists rest. exact Hdeck.
Qed.

(** *** The draw phase *)

(** The draw phase trusts the claim.  With draw actions in the request,
    it takes as many cards as were claimed off the top of the deck (all
    of the deck when more were claimed than it holds) and appends the
    claimed cards, whatever they are, to the actor's hand; it always
    reports success, and it leaves the played cards as the
    replenishment check left them. *)
Theorem draw_phase_trusts_the_claim :
  forall (g : GameState) (d : Data) (hand : list Card),
    players_get (data_from d) (players g) = Some hand ->
    draws_of d <> [] ->
    let g1 := fst (fst (handleDeckReshuffle env g)) in
    let g' := fst (fst (drawPhase env g d)) in
    let n := length (draws_of d) in
    snd (fst (drawPhase env g d)) = true
    /\ snd (drawPhase env g d) = snd (fst (handleDeckReshuffle env g))
    /\ players_get (data_from d) (players g') = Some (hand ++ draws_of d)
    /\ deck g' = take (length (deck g1) - n) (deck g1)
    /\ length (deck g') = (length (deck g1) - n)%nat
    /\ playedCards g' = playedCards g1.
Proof.
  intros g d hand Hhand Hdraws g1 g' n. subst g1 g' n.
  unfold drawPhase. rewrite draws_length.
  change (map (fun action => mkCard (v (card action)) (s (card action)))
            (List.filter (fun c => String.eqb (kind c) "DRAW")
               (data_cards d))) with (draws_of d).
  destruct (draws_of d) as [| c cs]; [contradiction |].
  cbn [length Nat.ltb Nat.leb]. unfold processDrawAction.
  assert (Hplayers : players (fst (fst (handleDeckReshuffle env g)))
                     = players g).
  { destruct (snd (fst (handleDeckReshuffle env g))) eqn:Hr.
    - destruct (reshuffle_triggered env g Hr) as (top & rest & _ & ->).
      reflexivity.
    - rewrite (reshuffle_not_triggered env g Hr). reflexivity. }
  destruct (handleDeckReshuffle env g) as [[g1 reshuffled] count].
  simpl in Hplayers |- *.
  rewrite Hplayers, players_get_alter, Hhand, length_take.
  repeat split. lia.
Qed.

(** *** The steps of a play *)

(** The handler's own penalty rule.  A card that is not a penalty card
    (value 2, 3 or 50) leaves the state as it is.  A penalty card sets
    the penalty count, whatever it was, to 0 when the current card is a
    stronger penalty card and to its own weight (5 for the value 50)
    otherwise; the count is never a sum. *)
Theorem penalty_card_sets_the_count :
  forall (g : GameState) (a : Card),
    let weight := fun value : Z => if value =? 50 then 5 else value in
    let stronger :=
      match currentCard g with
      | Some c =>
          includes_num PENALTY_CARDS (v c) && (weight (v c) >? weight (v a))
      | None => false
      end in
    (includes_num PENALTY_CARDS (v a) = false -> processPenaltyCard g a = g)
    /\ (includes_num PENALTY_CARDS (v a) = true ->
        processPenaltyCard g a
        = set_activePenaltyCount (if stronger then 0 else weight (v a)) g
        /\ In (if stronger then 0 else weight (v a)) [0; 2; 3; 5]).
Proof.
  intros g a weight stronger. unfold processPenaltyCard.
  split; [intros ->; reflexivity |].
  intros Hpen. rewrite Hpen. split.
  - subst stronger weight. cbv beta.
    destruct (currentCard g) as [c |]; [| reflexivity].
    destruct (includes_num PENALTY_CARDS (v c)); [| reflexivity].
    cbn [andb].
    destruct (Z.eqb_spec (if v c =? 50 then 5 else v c)
                (if v a =? 50 then 5 else v a)) as [Heq | Hne].
    + rewrite Heq, Z.gtb_ltb, Z.ltb_irrefl. reflexivity.
    + destruct (_ >? _); reflexivity.
  - unfold includes_num, PENALTY_CARDS in Hpen. simpl in Hpen.
    rewrite orb_false_r, !orb_true_iff, !Z.eqb_eq in Hpen.
    subst weight. cbv beta.
    destruct stronger; [left; reflexivity |].
    destruct Hpen as [-> | [-> | ->]]; simpl; auto.
Qed.

(** What a play does to the hand and the chosen suit.  Every copy of
    the played card leaves the actor's hand, so the hand does not hold
    it afterwards and is no longer than before; the count returned is
    the length of the hand left.  The card is appended to the played
    cards and becomes the current card.  The chosen suit is the
    request's new suit when one is given and is unset otherwise.  The
    cutting-card flag is raised for a 7 of the cutting card's suit. *)
Theorem play_action_effects :
  forall (g : GameState) (from : string) (a : Card)
         (newSuit : option string),
    let g' := fst (fst (processPlayAction g from a newSuit)) in
    hand_of from g'
    = List.filter (fun c => negb (card_eqb c a)) (hand_of from g)
    /\ ~ In a (hand_of from g')
    /\ (length (hand_of from g') <= length (hand_of from g))%nat
    /\ snd (processPlayAction g from a newSuit) = length (hand_of from g')
    /\ playedCards g' = playedCards g ++ [a]
    /\ currentCard g' = Some a
    /\ truthy (chosenSuit g') = truthy newSuit
    /\ (truthy newSuit = true -> chosenSuit g' = newSuit)
    /\ snd (fst (processPlayAction g from a newSuit)) = is_cutting g a.
Proof.
  intros g from a newSuit g'.
  destruct (play_action_fields g from a newSuit)
    as (Hplayers & _ & Hplayed & Hcurrent & _ & _ & Hcount).
  fold g' in Hplayers, Hplayed, Hcurrent, Hcount.
  assert (Hhand : hand_of from g'
                  = List.filter (fun c => negb (card_eqb c a))
                      (hand_of from g)).
  { unfold hand_of. rewrite Hplayers, players_get_alter.
    destruct (players_get from (players g)); reflexivity. }
  split; [exact Hhand |]. split.
  { rewrite Hhand. intros Hin. apply List.filter_In in Hin.
    destruct Hin as [_ Hin].
    assert (Hself : card_eqb a a = true) by (apply card_eqb_eq; reflexivity).
    rewrite Hself in Hin. discriminate. }
  split; [rewrite Hhand; apply List.filter_length_le |].
  split; [exact Hcount |]. split; [exact Hplayed |].
  split; [exact Hcurrent |].
  subst g'. unfold processPlayAction, is_cutting.
  destruct (penalty_card_only_counts
              (if truthy (chosenSuit g) then set_chosenSuit None g else g) a)
    as [n ->].
  destruct (truthy (chosenSuit g)) eqn:Hold, (truthy newSuit) eqn:Hnew;
    simpl; repeat split; auto; discriminate.
Qed.

(** *** What a turn leaves alone *)

Lemma players_alter_keys (f : list Card -> list Card) (id : string)
    (ps : Players) :
  players_keys (players_alter f id ps) = players_keys ps.
Proof.
  induction ps as [| [k h] ps IH]; [reflexivity |].
  cbn [players_alter]. destruct (String.eqb k id); [reflexivity |].
  unfold players_keys in *. cbn [map fst]. rewrite IH. reflexivity.
Qed.

Lemma players_get_alter_other (f : list Card -> list Card) (id p : string)
    (ps : Players) :
  p <> id -> players_get p (players_alter f id ps) = players_get p ps.
Proof.
  intros Hne. induction ps as [| [k h] ps IH]; [reflexivity |].
  cbn [players_alter]. destruct (String.eqb_spec k id) as [-> | Hk].
  - cbn [players_get].
    destruct (String.eqb_spec id p) as [<- | _]; [contradiction | reflexivity].
  - cbn [players_get]. rewrite IH. reflexivity.
Qed.

Lemma untouched_refl (from : string) (g : GameState) : untouched from g g.
Proof. unfold untouched. auto. Qed.

Lemma untouched_trans (from : string) (g1 g2 g3 : GameState) :
  untouched from g1 g2 -> untouched from g2 g3 -> untouched from g1 g3.
Proof.
  unfold untouched. intros (Hi & Hc & Hk & Hp) (Hi' & Hc' & Hk' & Hp').
  repeat split; try congruence.
  intros p Hne. rewrite (Hp' p Hne). apply Hp. exact Hne.
Qed.

(** A state with the game id, the cutting card and the players of
    another is untouched. *)
Lemma untouched_same_players (from : string) (g g' : GameState) :
  gameId g' = gameId g -> cuttingCard g' = cuttingCard g ->
  players g' = players g -> untouched from g g'.
Proof. unfold untouched. intros -> -> ->. auto. Qed.

Lemma untouched_alter (from : string) (f : list Card -> list Card)
    (g g' : GameState) :
  gameId g' = gameId g -> cuttingCard g' = cuttingCard g ->
  players g' = players_alter f from (players g) -> untouched from g g'.
Proof.
  unfold untouched. intros -> -> ->.
  repeat split; [apply players_alter_keys |].
  intros p Hne. apply players_get_alter_other. exact Hne.
Qed.

Lemma reshuffle_untouched (from : string) (g : GameState) :
  untouched from g (fst (fst (handleDeckReshuffle env g))).
Proof.
  destruct (snd (fst (handleDeckReshuffle env g))) eqn:Hr.
  - destruct (reshuffle_triggered env g Hr) as (top & rest & _ & ->).
    apply untouched_same_players; reflexivity.
  - rewrite (reshuffle_not_triggered env g Hr). apply untouched_refl.
Qed.

Lemma draw_phase_untouched (g : GameState) (d : Data) :
  untouched (data_from d) g (fst (fst (drawPhase env g d))).
Proof.
  unfold drawPhase.
  destruct (0 <? length _)%nat; [| apply untouched_refl].
  unfold processDrawAction.
  pose proof (reshuffle_untouched (data_from d) g) as Hresh.
  destruct (handleDeckReshuffle env g) as [[g1 reshuffled] count].
  simpl in Hresh |- *.
  eapply untouched_trans; [exact Hresh |].
  eapply untouched_alter; reflexivity.
Qed.

Lemma play_action_untouched (g : GameState) (from : string) (a : Card)
    (newSuit : option string) :
  untouched from g (fst (fst (processPlayAction g from a newSuit))).
Proof.
  unfold processPlayAction.
  destruct (penalty_card_only_counts
              (if truthy (chosenSuit g) then set_chosenSuit None g else g) a)
    as [n ->].
  destruct (truthy (chosenSuit g)), (truthy newSuit);
    eapply untouched_alter; reflexivity.
Qed.

Lemma play_loop_untouched (from : string) (newSuit : option string)
    (plays : list MoveCard) :
  forall (g : GameState) (cut : bool),
    untouched from g (fst (fst (playLoop g from plays newSuit cut))).
Proof.
  induction plays as [| a rest IH]; intros g cut; [apply untouched_refl |].
  cbn [playLoop]. rewrite card_eta.
  pose proof (play_action_untouched g from (card a) newSuit) as Hplay.
  destruct (processPlayAction g from (card a) newSuit) as [[g1 isCut] n].
  simpl in Hplay. destruct (n =? 1)%nat; [exact Hplay |].
  eapply untouched_trans; [exact Hplay | apply IH].
Qed.

Lemma notify_card_ids (newSuit : option string) (g : GameState)
    (c : MoveCard) :
  gameId (notifyCard newSuit g c) = gameId g
  /\ cuttingCard (notifyCard newSuit g c) = cuttingCard g
  /\ currentTurn (notifyCard newSuit g c) = currentTurn g
  /\ turnExpiresAt (notifyCard newSuit g c) = turnExpiresAt g
  /\ waitTimeout (notifyCard newSuit g c) = waitTimeout g.
Proof.
  unfold notifyCard. destruct (String.eqb (kind c) "DRAW"); [auto |].
  destruct (truthy newSuit); simpl; auto.
Qed.

Lemma notify_cards_ids (newSuit : option string) (cs : list MoveCard) :
  forall g : GameState,
    let g' := fold_left (notifyCard newSuit) cs g in
    gameId g' = gameId g
    /\ cuttingCard g' = cuttingCard g
    /\ currentTurn g' = currentTurn g
    /\ turnExpiresAt g' = turnExpiresAt g
    /\ waitTimeout g' = waitTimeout g.
Proof.
  induction cs as [| c cs IH]; intros g; [simpl; auto |].
  cbn [fold_left].
  destruct (notify_card_ids newSuit g c) as (H1 & H2 & H3 & H4 & H5).
  destruct (IH (notifyCard newSuit g c)) as (I1 & I2 & I3 & I4 & I5).
  cbv zeta. repeat split; congruence.
Qed.

(** The messages of the notification: one to each player id that
    [clients] knows, in the order of the ids; each tells the cards of
    the request, whether a reshuffle occurred, and whose turn it is. *)
Lemma notify_players_messages (d : Data) (reshuffled : bool)
    (ids : list string) :
  forall g : GameState,
    let res := notifyPlayers env d reshuffled ids g in
    (gameId (fst res) = gameId g
     /\ cuttingCard (fst res) = cuttingCard g
     /\ currentTurn (fst res) = currentTurn g
     /\ turnExpiresAt (fst res) = turnExpiresAt g
     /\ waitTimeout (fst res) = waitTimeout g)
    /\ recipients (snd res)
       = List.filter (fun p => bool_decide (p ∈ clients env)) ids
    /\ Forall (fun e =>
                 exists (playerId : string) (moveData : MoveData),
                   e = ClientSend playerId moveData
                   /\ md_cards moveData = map moveDataCard (data_cards d)
                   /\ md_reshuffled moveData = reshuffled
                   /\ snap_currentTurn (md_gameState moveData)
                      = currentTurn g)
         (snd res).
Proof.
  induction ids as [| playerId ids IH]; intros g.
  - simpl. repeat split; auto.
  - cbn [notifyPlayers].
    pose proof (notify_cards_ids (data_newSuit d) (data_cards d) g) as Hg1.
    set (g1 := fold_left (notifyCard (data_newSuit d)) (data_cards d) g) in *.
    cbv zeta in Hg1. destruct Hg1 as (H1 & H2 & H3 & H4 & H5).
    specialize (IH g1).
    destruct (notifyPlayers env d reshuffled ids g1) as [g2 more].
    cbv zeta in IH. simpl fst in IH. simpl snd in IH.
    destruct IH as ((I1 & I2 & I3 & I4 & I5) & Irec & Iall).
    cbv zeta. simpl fst. simpl snd.
    split; [repeat split; congruence |].
    cbn [List.filter]. unfold recipients in *. rewrite flat_map_app, Irec.
    rewrite H3 in Iall.
    destruct (decide (playerId ∈ clients env)) as [Hin | Hout].
    + rewrite (bool_decide_eq_true_2 _ Hin). split; [reflexivity |].
      apply Forall_app. split; [| exact Iall].
      constructor; [| constructor]. eexists _, _.
      split; [reflexivity |]. simpl. auto.
    + rewrite (bool_decide_eq_false_2 _ Hout). split; [reflexivity |].
      exact Iall.
Qed.

Lemma draw_phase_wait (g : GameState) (d : Data) :
  waitTimeout (fst (fst (drawPhase env g d))) = waitTimeout g.
Proof.
  unfold drawPhase. destruct (0 <? length _)%nat; [| reflexivity].
  unfold processDrawAction.
  destruct (snd (fst (handleDeckReshuffle env g))) eqn:Hr.
  - destruct (reshuffle_triggered env g Hr) as (top & rest & _ & ->).
    reflexivity.
  - rewrite (reshuffle_not_triggered env g Hr). reflexivity.
Qed.

Lemma play_loop_wait (from : string) (newSuit : option string)
    (plays : list MoveCard) :
  forall (g : GameState) (cut : bool),
    waitTimeout (fst (fst (playLoop g from plays newSuit cut)))
    = waitTimeout g.
Proof.
  induction plays as [| a rest IH]; intros g cut; [reflexivity |].
  cbn [playLoop]. rewrite card_eta.
  assert (Hplay : waitTimeout
                    (fst (fst (processPlayAction g from (card a) newSuit)))
                  = waitTimeout g).
  { unfold processPlayAction.
    destruct (penalty_card_only_counts
                (if truthy (chosenSuit g) then set_chosenSuit None g else g)
                (card a)) as [n ->].
    destruct (truthy (chosenSuit g)), (truthy newSuit); reflexivity. }
  destruct (processPlayAction g from (card a) newSuit) as [[g1 isCut] n].
  simpl in Hplay. destruct (n =? 1)%nat; [exact Hplay |].
  rewrite IH. exact Hplay.
Qed.

(** The three ways out of [handleMove] once the game and the actor are
    found, by the flags of the play loop. *)
Lemma handle_move_outcome (gameStates : gmap string GameState) (d : Data)
    (gameState : GameState) (hand : list Card) :
  gameStates !! data_gameId d = Some gameState ->
  players_get (data_from d) (players gameState) = Some hand ->
  let g0 := set_waitTimeout None gameState in
  let loop := playLoop (fst (fst (drawPhase env g0 d))) (data_from d)
                (plays_of d) (data_newSuit d) false in
  let g2 := fst (fst loop) in
  let g4 := set_turnExpiresAt (dateNow env + PLAY_TIMEOUT_DURATION env)
              (set_currentTurn (data_to d) g2) in
  let notified := notifyPlayers env d (snd (drawPhase env g0 d))
                    (players_keys (players g4)) g4 in
  handleMove env gameStates d
  = if snd loop then
      mkResult (<[data_gameId d := g2]> gameStates)
        [EndGameCall (data_from d) (opponent_of (data_from d) g2)
           "NO_CARDS" d] WonNoCards
    else if snd (fst loop) then
      match playerCardSums g2 with
      | first :: second :: _ =>
          mkResult (<[data_gameId d := g2]> gameStates)
            [EndGameCall (fst first) (Some (fst second)) "CUTTING_CARD" d]
            WonCuttingCard
      | _ => mkResult (<[data_gameId d := g2]> gameStates) [] ThrewTypeError
      end
    else
      mkResult
        (<[data_gameId d
           := if activePenaltyCount (fst notified) =? 0 then fst notified
              else set_activePenaltyCount 0 (fst notified)]> gameStates)
        (StartTimeoutCall (data_gameId d) :: snd notified) Continued.
Proof.
  intros Hgame Hplayer g0 loop g2 g4 notified.
  subst notified g4 g2 loop. unfold handleMove.
  rewrite Hgame, Hplayer. fold (plays_of d). fold g0.
  destruct (draw_phase_frame env g0 d) as (Hok & _).
  destruct (drawPhase env g0 d) as [[g1 success] reshuffled].
  simpl in Hok. subst success. simpl negb. cbv iota. simpl fst. simpl snd.
  destruct (playLoop g1 (data_from d) (plays_of d) (data_newSuit d) false)
    as [[g2 cut] won].
  simpl fst. simpl snd.
  destruct won; [reflexivity |]. destruct cut; [reflexivity |].
  destruct (notifyPlayers env d reshuffled _ _) as [g5 sends]. reflexivity.
Qed.

(** The state a turn stores is the state the play loop left but for
    the fields the handoff and the notification write. *)
Lemma stored_untouched (gameStates : gmap string GameState) (d : Data)
    (gameState : GameState) (hand : list Card) :
  gameStates !! data_gameId d = Some gameState ->
  players_get (data_from d) (players gameState) = Some hand ->
  exists g' : GameState,
    store (handleMove env gameStates d) !! data_gameId d = Some g'
    /\ untouched (data_from d) gameState g'.
Proof.
  intros Hgame Hplayer.
  rewrite (handle_move_outcome gameStates d gameState hand Hgame Hplayer).
  cbv zeta.
  set (g0 := set_waitTimeout None gameState).
  assert (Hloop : untouched (data_from d) gameState
                    (fst (fst (playLoop (fst (fst (drawPhase env g0 d)))
                                 (data_from d) (plays_of d) (data_newSuit d)
                                 false)))).
  { eapply untouched_trans;
      [apply (untouched_same_players _ gameState g0); reflexivity |].
    eapply untouched_trans;
      [apply draw_phase_untouched | apply play_loop_untouched]. }
  destruct (playLoop _ _ _ _ _) as [[g2 cut] won]. simpl fst in *.
  simpl snd.
  destruct won; [exists g2; simpl; rewrite lookup_insert_eq; auto |].
  destruct cut.
  { destruct (playerCardSums g2) as [| p1 [| p2 ps]];
      exists g2; simpl; rewrite lookup_insert_eq; auto. }
  set (g4 := set_turnExpiresAt _ _).
  destruct (notify_players_spec env d (snd (drawPhase env g0 d))
              (players_keys (players g4)) g4) as [(Hp & _) _].
  destruct (notify_players_messages d (snd (drawPhase env g0 d))
              (players_keys (players g4)) g4) as ((Hi & Hc & _) & _).
  destruct (notifyPlayers env d _ _ g4) as [g5 sends].
  simpl in Hp, Hi, Hc |- *. rewrite lookup_insert_eq.
  eexists. split; [reflexivity |].
  eapply untouched_trans; [exact Hloop |].
  apply untouched_same_players;
    destruct (activePenaltyCount g5 =? 0); simpl; congruence.
Qed.

(** A turn changes no hand but the actor's.  With the game and the
    actor found, the stored state has the game id, the cutting card and
    the players, in their order, of the state before the call, and
    every other player holds the cards held before. *)
Theorem turn_leaves_others_alone :
  forall (gameStates : gmap string GameState) (d : Data)
         (gameState : GameState) (hand : list Card),
    gameStates !! data_gameId d = Some gameState ->
    players_get (data_from d) (players gameState) = Some hand ->
    exists g' : GameState,
      store (handleMove env gameStates d) !! data_gameId d = Some g'
      /\ gameId g' = gameId gameState
      /\ cuttingCard g' = cuttingCard gameState
      /\ players_keys (players g') = players_keys (players gameState)
      /\ forall p : string,
           p <> data_from d ->
           players_get p (players g') = players_get p (players gameState).
Proof.
  intros gameStates d gameState hand Hgame Hplayer.
  destruct (stored_untouched gameStates d gameState hand Hgame Hplayer)
    as (g' & Hstore & Hsame).
  exists g'. split; [exact Hstore | exact Hsame].
Qed.

(** A turn touches one game.  Whatever the request, found or not, the
    state stored under every other game id is as before. *)
Theorem other_games_untouched :
  forall (gameStates : gmap string GameState) (d : Data) (k : string),
    k <> data_gameId d ->
    store (handleMove env gameStates d) !! k = gameStates !! k.
Proof.
  intros gameStates d k Hne.
  destruct (gameStates !! data_gameId d) as [gameState |] eqn:Hgame;
    [| unfold handleMove; rewrite Hgame; reflexivity].
  destruct (players_get (data_from d) (players gameState)) as [hand |]
    eqn:Hplayer;
    [| unfold handleMove; rewrite Hgame, Hplayer; reflexivity].
  rewrite (handle_move_outcome gameStates d gameState hand Hgame Hplayer).
  cbv zeta. destruct (playLoop _ _ _ _ _) as [[g2 cut] won].
  simpl fst. simpl snd.
  destruct won; [simpl; apply lookup_insert_ne; congruence |].
  destruct cut.
  { destruct (playerCardSums g2) as [| p1 [| p2 ps]];
      simpl; apply lookup_insert_ne; congruence. }
  simpl. apply lookup_insert_ne. congruence.
Qed.

(** *** The handoff *)

(** The turn handoff.  When [handleMove] goes on with the game, the
    stored state names the request's target as the player to move, its
    deadline is the clock plus the timeout, and its wait timer is
    cleared; the timeout is started first and then one move message
    goes to each player of the game that [clients] knows, in the order
    of the players and to nobody else; each carries the cards of the
    request, whether the draw phase reshuffled, and the new turn. *)
Theorem handoff :
  forall (gameStates : gmap string GameState) (d : Data)
         (gameState : GameState),
    gameStates !! data_gameId d = Some gameState ->
    let r := handleMove env gameStates d in
    exit r = Continued ->
    exists (g' : GameState) (sends : list Event),
      store r !! data_gameId d = Some g'
      /\ currentTurn g' = data_to d
      /\ turnExpiresAt g' = dateNow env + PLAY_TIMEOUT_DURATION env
      /\ waitTimeout g' = None
      /\ events r = StartTimeoutCall (data_gameId d) :: sends
      /\ recipients sends
         = List.filter (fun p => bool_decide (p ∈ clients env))
             (players_keys (players gameState))
      /\ Forall (fun e =>
                   exists (playerId : string) (moveData : MoveData),
                     e = ClientSend playerId moveData
                     /\ md_cards moveData = map moveDataCard (data_cards d)
                     /\ md_reshuffled moveData
                        = snd (drawPhase env (set_waitTimeout None gameState)
                                 d)
                     /\ snap_currentTurn (md_gameState moveData) = data_to d)
           sends.
Proof.
  intros gameStates d gameState Hgame r. subst r.
  destruct (players_get (data_from d) (players gameState)) as [hand |]
    eqn:Hplayer;
    [| unfold handleMove; rewrite Hgame, Hplayer; discriminate].
  rewrite (handle_move_outcome gameStates d gameState hand Hgame Hplayer).
  cbv zeta. set (g0 := set_waitTimeout None gameState).
  pose proof (draw_phase_wait g0 d) as Hw1.
  pose proof (play_loop_wait (data_from d) (data_newSuit d) (plays_of d)
                (fst (fst (drawPhase env g0 d))) false) as Hw2.
  pose proof (play_loop_untouched (data_from d) (data_newSuit d) (plays_of d)
                (fst (fst (drawPhase env g0 d))) false) as (_ & _ & Hk2 & _).
  pose proof (draw_phase_untouched g0 d) as (_ & _ & Hk1 & _).
  destruct (playLoop _ _ _ _ _) as [[g2 cut] won].
  simpl fst in *. simpl snd.
  destruct won; [discriminate |].
  destruct cut;
    [destruct (playerCardSums g2) as [| p1 [| p2 ps]]; discriminate |].
  set (g4 := set_turnExpiresAt _ _).
  destruct (notify_players_messages d (snd (drawPhase env g0 d))
              (players_keys (players g4)) g4)
    as ((_ & _ & Ht & He & Hw) & Hrec & Hall).
  destruct (notifyPlayers env d _ _ g4) as [g5 sends].
  simpl in Ht, He, Hw, Hrec, Hall |- *. intros _.
  eexists _, sends. rewrite lookup_insert_eq.
  split; [reflexivity |].
  split; [destruct (activePenaltyCount g5 =? 0); simpl; exact Ht |].
  split; [destruct (activePenaltyCount g5 =? 0); simpl; exact He |].
  split; [destruct (activePenaltyCount g5 =? 0); simpl;
          rewrite Hw, Hw2, Hw1; reflexivity |].
  split; [reflexivity |].
  split; [rewrite Hrec, Hk2, Hk1; reflexivity | exact Hall].
Qed.

(** A request with no cards passes the turn.  The stored state is the
    state before the call with the wait timer cleared, the target to
    move, the new deadline and a penalty count of 0, so a pending
    count does not outlive an empty turn; hands, piles, current card
    and chosen suit are as before. *)
Theorem empty_turn_passes :
  forall (gameStates : gmap string GameState) (d : Data)
         (gameState : GameState) (hand : list Card),
    gameStates !! data_gameId d = Some gameState ->
    players_get (data_from d) (players gameState) = Some hand ->
    data_cards d = [] ->
    let r := handleMove env gameStates d in
    exit r = Continued
    /\ store r = <[data_gameId d := handed_over env d gameState]> gameStates.
Proof.
  intros gameStates d gameState hand Hgame Hplayer Hcards r. subst r.
  rewrite (handle_move_outcome gameStates d gameState hand Hgame Hplayer).
  cbv zeta.
  assert (Hdraws : draws_of d = []) by (unfold draws_of; rewrite Hcards;
                                        reflexivity).
  assert (Hplays : plays_of d = []) by (unfold plays_of; rewrite Hcards;
                                        reflexivity).
  rewrite (draw_phase_no_draws env _ d Hdraws), Hplays. simpl fst. simpl snd.
  cbv iota.
  assert (Hnotify : forall (ids : list string) (g : GameState),
            fst (notifyPlayers env d false ids g) = g).
  { induction ids as [| p ids IH]; intros g; [reflexivity |].
    cbn [notifyPlayers]. rewrite Hcards. cbn [fold_left].
    specialize (IH g). destruct (notifyPlayers env d false ids g).
    exact IH. }
  rewrite Hnotify. split; [reflexivity |]. simpl store. f_equal.
  unfold handed_over.
  destruct (Z.eqb_spec (activePenaltyCount gameState) 0) as [Hzero | Hnz].
  - destruct gameState. simpl in Hzero. subst. reflexivity.
  - reflexivity.
Qed.

(** *** The cutting card *)

Lemma insert_by_total_length (x : string * Z) (l : list (string * Z)) :
  length (insert_by_total x l) = S (length l).
Proof.
  induction l as [| y l IH]; [reflexivity |].
  cbn [insert_by_total]. destruct (snd x <=? snd y); [reflexivity |].
  cbn [length]. rewrite IH. reflexivity.
Qed.

Lemma sort_by_total_length (l : list (string * Z)) :
  length (sort_by_total l) = length l.
Proof.
  induction l as [| x l IH]; [reflexivity |].
  unfold sort_by_total in *. cbn [foldr length].
  rewrite insert_by_total_length, IH. reflexivity.
Qed.

(** The head of the sorted totals is the first of the least totals. *)
Lemma sort_by_total_head (l : list (string * Z)) :
  forall (x : string * Z) (rest : list (string * Z)),
    sort_by_total l = x :: rest ->
    exists pre post : list (string * Z),
      l = pre ++ x :: post
      /\ Forall (fun y => snd x < snd y) pre
      /\ Forall (fun y => snd x <= snd y) post.
Proof.
  induction l as [| a l IH]; intros x rest; [discriminate |].
  unfold sort_by_total in *. cbn [foldr].
  destruct (foldr insert_by_total [] l) as [| m ms] eqn:Hsorted.
  - assert (Hnil : l = []).
    { apply (f_equal length) in Hsorted.
      change (foldr insert_by_total [] l) with (sort_by_total l) in Hsorted.
      rewrite sort_by_total_length in Hsorted.
      destruct l; [reflexivity | discriminate]. }
    subst l. cbn [insert_by_total]. intros [= <- <-].
    exists [], []. repeat split; constructor.
  - destruct (IH m ms eq_refl) as (pre & post & Hl & Hpre & Hpost).
    cbn [insert_by_total]. destruct (Z.leb_spec (snd a) (snd m)) as [Hle | Hgt].
    + intros [= <- <-]. exists [], l. split; [reflexivity |].
      split; [constructor |]. rewrite Hl. apply Forall_app. split.
      * eapply Forall_impl; [exact Hpre |]. cbv beta. intros y Hy. lia.
      * constructor; [exact Hle |].
        eapply Forall_impl; [exact Hpost |]. cbv beta. intros y Hy. lia.
    + intros [= <- <-]. exists (a :: pre), post.
      split; [rewrite Hl; reflexivity |].
      split; [constructor; assumption | exact Hpost].
Qed.

Lemma play_action_cut (g : GameState) (from : string) (a : Card)
    (newSuit : option string) :
  snd (fst (processPlayAction g from a newSuit)) = is_cutting g a.
Proof.
  unfold processPlayAction, is_cutting.
  destruct (penalty_card_only_counts
              (if truthy (chosenSuit g) then set_chosenSuit None g else g) a)
    as [n ->].
  destruct (truthy (chosenSuit g)); reflexivity.
Qed.

(** The cutting-card flag of the play loop: raised by a play of a 7 of
    the cutting card's suit, and by nothing else. *)
Lemma play_loop_cut (from : string) (newSuit : option string)
    (plays : list MoveCard) :
  forall (g : GameState) (cut : bool),
    let res := playLoop g from plays newSuit cut in
    let any := existsb (fun c => is_cutting g (card c)) plays in
    (snd res = false -> snd (fst res) = cut || any)
    /\ (snd (fst res) = true -> cut || any = true).
Proof.
  induction plays as [| a rest IH]; intros g cut.
  - simpl. rewrite orb_false_r. auto.
  - cbn [playLoop existsb]. rewrite card_eta.
    pose proof (play_action_cut g from (card a) newSuit) as Hcut.
    pose proof (play_action_untouched g from (card a) newSuit)
      as (_ & Hcard & _).
    destruct (processPlayAction g from (card a) newSuit) as [[g1 isCut] n].
    simpl in Hcut, Hcard. subst isCut.
    assert (Hsame : existsb (fun c => is_cutting g1 (card c)) rest
                    = existsb (fun c => is_cutting g (card c)) rest).
    { unfold is_cutting. rewrite Hcard. reflexivity. }
    destruct (n =? 1)%nat.
    + simpl. split; [discriminate |].
      destruct (is_cutting g (card a)); simpl; [intros _; apply orb_true_r |].
      intros ->. reflexivity.
    + specialize (IH g1 (if is_cutting g (card a) then true else cut)).
      cbv zeta in IH |- *. rewrite Hsame in IH.
      destruct IH as [Hdone Hflag].
      destruct (is_cutting g (card a)), cut; simpl in *; auto.
Qed.

(** Who wins by the cutting card.  When [handleMove] ends the game by
    the cutting card, [endGame] is its only effect and the turn is not
    handed over: the stored state is the state the play loop left.  The
    winner holds the least total of card values, and of players with
    that total the first in the order of the players. *)
Theorem cutting_card_winner :
  forall (gameStates : gmap string GameState) (d : Data)
         (gameState : GameState),
    gameStates !! data_gameId d = Some gameState ->
    let r := handleMove env gameStates d in
    exit r = WonCuttingCard ->
    exists (winner loser : string) (total : Z)
           (pre post : list (string * Z)),
      events r = [EndGameCall winner (Some loser) "CUTTING_CARD" d]
      /\ store r !! data_gameId d = Some (after_plays env gameState d)
      /\ hand_totals (after_plays env gameState d)
         = pre ++ (winner, total) :: post
      /\ Forall (fun y => total < snd y) pre
      /\ Forall (fun y => total <= snd y) post.
Proof.
  intros gameStates d gameState Hgame r. subst r.
  destruct (players_get (data_from d) (players gameState)) as [hand |]
    eqn:Hplayer;
    [| unfold handleMove; rewrite Hgame, Hplayer; discriminate].
  rewrite (handle_move_outcome gameStates d gameState hand Hgame Hplayer).
  cbv zeta. fold (after_plays env gameState d).
  destruct (playLoop _ _ _ _ _) as [[g2' cut] won]. simpl snd.
  destruct won; [discriminate |].
  destruct cut; [| destruct (notifyPlayers _ _ _ _ _); discriminate].
  destruct (playerCardSums (after_plays env gameState d))
    as [| [w tw] [| [l tl] ps]] eqn:Hsums; try discriminate.
  intros _.
  destruct (sort_by_total_head _ _ _ Hsums) as (pre & post & Hl & Hpre & Hpost).
  exists w, l, tw, pre, post. simpl.
  rewrite lookup_insert_eq. auto.
Qed.

(** The cutting card with one player.  When the cutting card is played
    in a game of a single player, reading the second of the sorted
    totals throws: [endGame] is not called and nothing is sent. *)
Theorem cutting_card_alone_throws :
  forall (gameStates : gmap string GameState) (d : Data)
         (gameState : GameState),
    gameStates !! data_gameId d = Some gameState ->
    let r := handleMove env gameStates d in
    (exit r = ThrewTypeError ->
     length (players gameState) = 1%nat /\ events r = [])
    /\ (exit r = WonCuttingCard -> (2 <= length (players gameState))%nat).
Proof.
  intros gameStates d gameState Hgame r. subst r.
  destruct (players_get (data_from d) (players gameState)) as [hand |]
    eqn:Hplayer;
    [| unfold handleMove; rewrite Hgame, Hplayer; split; discriminate].
  rewrite (handle_move_outcome gameStates d gameState hand Hgame Hplayer).
  cbv zeta. fold (after_plays env gameState d).
  assert (Hkeys : players_keys (players (after_plays env gameState d))
                  = players_keys (players gameState)).
  { unfold after_plays.
    pose proof (play_loop_untouched (data_from d) (data_newSuit d)
                  (plays_of d)
                  (fst (fst (drawPhase env (set_waitTimeout None gameState)
                               d))) false) as (_ & _ & Hk2 & _).
    pose proof (draw_phase_untouched (set_waitTimeout None gameState) d)
      as (_ & _ & Hk1 & _).
    rewrite Hk2, Hk1. reflexivity. }
  assert (Hlen : length (playerCardSums (after_plays env gameState d))
                 = length (players gameState)).
  { unfold playerCardSums. rewrite sort_by_total_length, length_map, Hkeys.
    unfold players_keys. apply length_map. }
  assert (Hsome : (1 <= length (players gameState))%nat).
  { destruct (players gameState); [discriminate | simpl; lia]. }
  destruct (playLoop _ _ _ _ _) as [[g2' cut] won]. simpl snd.
  destruct won; [split; discriminate |].
  destruct cut;
    [| destruct (notifyPlayers _ _ _ _ _); split; discriminate].
  destruct (playerCardSums (after_plays env gameState d))
    as [| p1 [| p2 ps]]; simpl in Hlen |- *.
  - exfalso. lia.
  - split; [intros _; split; [lia | reflexivity] | discriminate].
  - split; [discriminate | intros _; lia].
Qed.

(** When the cutting card ends the game.  The game ends by the cutting
    card only if a play of the request is a 7 of the cutting card's
    suit, and it goes on only if none is. *)
Theorem cutting_card_is_a_seven :
  forall (gameStates : gmap string GameState) (d : Data)
         (gameState : GameState),
    gameStates !! data_gameId d = Some gameState ->
    let r := handleMove env gameStates d in
    let any :=
      existsb (fun c => is_cutting gameState (card c)) (plays_of d) in
    (exit r = WonCuttingCard \/ exit r = ThrewTypeError -> any = true)
    /\ (exit r = Continued -> any = false).
Proof.
  intros gameStates d gameState Hgame r any. subst r any.
  destruct (players_get (data_from d) (players gameState)) as [hand |]
    eqn:Hplayer;
    [| unfold handleMove; rewrite Hgame, Hplayer;
       split; [intros [H | H]; discriminate | discriminate]].
  rewrite (handle_move_outcome gameStates d gameState hand Hgame Hplayer).
  cbv zeta.
  set (g1 := fst (fst (drawPhase env (set_waitTimeout None gameState) d))).
  assert (Hcard : cuttingCard g1 = cuttingCard gameState).
  { pose proof (draw_phase_untouched (set_waitTimeout None gameState) d)
      as (_ & Hc & _). exact Hc. }
  pose proof (play_loop_cut (data_from d) (data_newSuit d) (plays_of d)
                g1 false) as Hcut.
  cbv zeta in Hcut. unfold is_cutting in Hcut |- *. rewrite Hcard in Hcut.
  destruct (playLoop g1 _ _ _ _) as [[g2 cut] won].
  simpl in Hcut |- *. destruct Hcut as [Hdone Hflag].
  destruct won; [split; [intros [H | H]; discriminate | discriminate] |].
  destruct cut.
  - split; [intros _; apply Hflag; reflexivity |].
    destruct (playerCardSums g2) as [| p1 [| p2 ps]]; discriminate.
  - destruct (notifyPlayers _ _ _ _ _).
    split; [intros [H | H]; discriminate |].
    intros _. symmetry. apply Hdone. reflexivity.
Qed.

End HandleMoveFurther.

(** * The course of a turn *)

Section TheCourseOfATurn.

Import HandleMove Turn Observed Course.

Variable env : Env.

(** *** The plays the loop goes through *)

(** The plays gone through are the first plays of the request. *)
Lemma processed_prefix (plays : list MoveCard) :
  forall hand : list Card,
    exists todo : list MoveCard, plays = processed hand plays ++ todo.
Proof.
  induction plays as [| a rest IH]; intros hand; [exists []; reflexivity |].
  cbn [processed]. destruct (length _ =? 1)%nat.
  - exists rest. reflexivity.
  - destruct (IH (hand_without (card a) hand)) as [todo Htodo].
    exists todo. cbn [app]. f_equal. exact Htodo.
Qed.

(** The first play is always gone through. *)
Lemma processed_first (hand : list Card) (first : MoveCard)
    (rest : list MoveCard) :
  exists more : list MoveCard, processed hand (first :: rest) = first :: more.
Proof.
  cbn [processed]. destruct (length _ =? 1)%nat; eauto.
Qed.

(** When no play leaves a hand of one card, all plays are gone
    through. *)
Lemma processed_all (plays : list MoveCard) :
  forall hand : list Card,
    leaves_one hand plays = false -> processed hand plays = plays.
Proof.
  induction plays as [| a rest IH]; intros hand; [reflexivity |].
  cbn [processed leaves_one]. destruct (length _ =? 1)%nat; [discriminate |].
  cbn [orb]. intros Hrest. rewrite (IH _ Hrest). reflexivity.
Qed.

(** The actor's hand after the draw phase: the hand before it followed
    by the cards claimed as drawn. *)
Lemma draw_phase_hand (g : GameState) (d : Data) (hand : list Card) :
  players_get (data_from d) (players g) = Some hand ->
  players_get (data_from d) (players (fst (fst (drawPhase env g d))))
  = Some (hand ++ draws_of d).
Proof.
  intros Hhand.
  destruct (draws_of d) as [| c cs] eqn:Hdraws.
  - rewrite (draw_phase_no_draws env g d Hdraws). simpl.
    rewrite app_nil_r. exact Hhand.
  - unfold drawPhase. rewrite draws_length.
    change (map (fun action => mkCard (v (card action)) (s (card action)))
              (List.filter (fun c => String.eqb (kind c) "DRAW")
                 (data_cards d))) with (draws_of d).
    rewrite Hdraws. cbn [length Nat.ltb Nat.leb]. unfold processDrawAction.
    assert (Hplayers : players (fst (fst (handleDeckReshuffle env g)))
                       = players g).
    { destruct (snd (fst (handleDeckReshuffle env g))) eqn:Hr.
      - destruct (reshuffle_triggered env g Hr) as (top & rest & _ & ->).
        reflexivity.
      - rewrite (reshuffle_not_triggered env g Hr). reflexivity. }
    destruct (handleDeckReshuffle env g) as [[g1 reshuffled] count].
    simpl in Hplayers |- *.
    rewrite Hplayers, players_get_alter, Hhand. reflexivity.
Qed.

(** The play loop, play by play: it returns from the handler exactly
    when a play leaves a hand of one card; the plays it goes through
    are those of [processed], whatever cards they are; their cards are
    appended in order to the played cards, every copy of each leaves
    the actor's hand, and the cutting-card flag is raised by a 7 of the
    cutting card's suit among them. *)
Lemma play_loop_course (from : string) (newSuit : option string)
    (plays : list MoveCard) :
  forall (g : GameState) (hand : list Card) (cut : bool),
    players_get from (players g) = Some hand ->
    let res := playLoop g from plays newSuit cut in
    let applied := processed hand plays in
    snd res = leaves_one hand plays
    /\ snd (fst res)
       = cut || existsb (fun a => is_cutting g (card a)) applied
    /\ playedCards (fst (fst res)) = playedCards g ++ map card applied
    /\ players_get from (players (fst (fst res)))
       = Some (hand_after hand applied).
Proof.
  induction plays as [| a rest IH]; intros g hand cut Hhand.
  - simpl. rewrite orb_false_r, app_nil_r. auto.
  - cbn [playLoop processed leaves_one]. rewrite card_eta.
    destruct (play_action_fields g from (card a) newSuit)
      as (Hplayers & _ & Hplayed & _ & _ & _ & Hcount).
    pose proof (play_action_cut g from (card a) newSuit) as Hcut.
    pose proof (play_action_untouched g from (card a) newSuit)
      as (_ & Hcard & _).
    assert (Hget : players_get from
                     (players (fst (fst (processPlayAction g from (card a)
                                           newSuit))))
                   = Some (hand_without (card a) hand)).
    { rewrite Hplayers, players_get_alter, Hhand. reflexivity. }
    unfold hand_of in Hcount. rewrite Hget in Hcount.
    destruct (processPlayAction g from (card a) newSuit) as [[g1 isCut] n].
    simpl in Hplayed, Hcount, Hcut, Hcard, Hget. subst isCut n.
    destruct (length (hand_without (card a) hand) =? 1)%nat.
    + simpl. rewrite orb_false_r.
      split; [reflexivity |].
      split; [destruct (is_cutting g (card a)), cut; reflexivity |].
      split; [exact Hplayed | exact Hget].
    + destruct (IH g1 (hand_without (card a) hand)
                  (if is_cutting g (card a) then true else cut) Hget)
        as (Hwon & Hflag & Hpile & Hheld).
      split; [exact Hwon |]. split; [| split].
      * rewrite Hflag. cbn [existsb]. unfold is_cutting. rewrite Hcard.
        destruct ((v (card a) =? 7)
                  && String.eqb (s (card a)) (s (cuttingCard g))), cut;
          reflexivity.
      * rewrite Hpile, Hplayed, <- app_assoc. reflexivity.
      * exact Hheld.
Qed.

(** *** The penalty count the plays record *)

Lemma penalty_card_count (g : GameState) (a : Card) :
  activePenaltyCount (processPenaltyCard g a)
  = count_after_play (currentCard g) (activePenaltyCount g) a.
Proof.
  unfold processPenaltyCard, count_after_play.
  destruct (includes_num PENALTY_CARDS (v a)); [| reflexivity].
  destruct (currentCard g) as [c |]; [| reflexivity].
  destruct (includes_num PENALTY_CARDS (v c)); [| reflexivity].
  cbn [andb].
  destruct (Z.eqb_spec (if v c =? 50 then 5 else v c)
              (if v a =? 50 then 5 else v a)) as [Heq | Hne].
  - rewrite Heq, Z.gtb_ltb, Z.ltb_irrefl. reflexivity.
  - destruct (_ >? _); reflexivity.
Qed.

Lemma play_action_count (g : GameState) (from : string) (a : Card)
    (newSuit : option string) :
  activePenaltyCount (fst (fst (processPlayAction g from a newSuit)))
  = count_after_play (currentCard g) (activePenaltyCount g) a.
Proof.
  unfold processPlayAction.
  destruct (truthy (chosenSuit g)), (truthy newSuit); simpl;
    rewrite penalty_card_count; reflexivity.
Qed.

(** The draw phase leaves the current card and the penalty count. *)
Lemma draw_phase_count (g : GameState) (d : Data) :
  currentCard (fst (fst (drawPhase env g d))) = currentCard g
  /\ activePenaltyCount (fst (fst (drawPhase env g d)))
     = activePenaltyCount g.
Proof.
  unfold drawPhase. destruct (0 <? length _)%nat; [| split; reflexivity].
  unfold processDrawAction.
  destruct (snd (fst (handleDeckReshuffle env g))) eqn:Hr.
  - destruct (reshuffle_triggered env g Hr) as (top & rest & _ & ->).
    split; reflexivity.
  - rewrite (reshuffle_not_triggered env g Hr). split; reflexivity.
Qed.

(** The penalty count the play loop leaves is the count its plays
    record one after the other. *)
Lemma play_loop_count (from : string) (newSuit : option string)
    (plays : list MoveCard) :
  forall (g : GameState) (hand : list Card) (cut : bool),
    players_get from (players g) = Some hand ->
    activePenaltyCount (fst (fst (playLoop g from plays newSuit cut)))
    = count_after (currentCard g) (activePenaltyCount g)
        (processed hand plays).
Proof.
  induction plays as [| a rest IH]; intros g hand cut Hhand; [reflexivity |].
  cbn [playLoop processed]. rewrite card_eta.
  destruct (play_action_fields g from (card a) newSuit)
    as (Hplayers & _ & _ & Hcurrent & _ & _ & Hcount).
  pose proof (play_action_count g from (card a) newSuit) as Hrecorded.
  assert (Hget : players_get from
                   (players (fst (fst (processPlayAction g from (card a)
                                         newSuit))))
                 = Some (hand_without (card a) hand)).
  { rewrite Hplayers, players_get_alter, Hhand. reflexivity. }
  unfold hand_of in Hcount. rewrite Hget in Hcount.
  destruct (processPlayAction g from (card a) newSuit) as [[g1 isCut] n].
  simpl in Hcurrent, Hcount, Hrecorded, Hget. subst n.
  destruct (length (hand_without (card a) hand) =? 1)%nat.
  - simpl. exact Hrecorded.
  - cbn [count_after]. rewrite <- Hrecorded, <- Hcurrent.
    apply IH. exact Hget.
Qed.

(** *** The state the notification leaves *)

(** A card of the request that is not a draw overwrites what the
    notification wrote for the cards before it. *)
Lemma notify_card_over (newSuit : option string) (g : GameState)
    (c c' : MoveCard) :
  String.eqb (kind c') "DRAW" = false ->
  notifyCard newSuit (notifyCard newSuit g c) c' = notifyCard newSuit g c'.
Proof.
  intros Hc'. unfold notifyCard. rewrite Hc'.
  destruct (String.eqb (kind c) "DRAW"); [reflexivity |].
  destruct (truthy newSuit); reflexivity.
Qed.

Lemma last_shown_not_draw (cs : list MoveCard) :
  forall c : MoveCard,
    last_shown cs = Some c -> String.eqb (kind c) "DRAW" = false.
Proof.
  induction cs as [| a rest IH]; intros c; [discriminate |].
  cbn [last_shown]. destruct (last_shown rest) as [c' |].
  - intros [= <-]. apply IH. reflexivity.
  - destruct (String.eqb (kind a) "DRAW") eqn:Ha; [discriminate |].
    intros [= <-]. exact Ha.
Qed.

(** One pass over the cards of the request writes what its last card
    that is not a draw says, and nothing when all are draws. *)
Lemma notify_cards_shown (newSuit : option string) (cs : list MoveCard) :
  forall g : GameState,
    fold_left (notifyCard newSuit) cs g
    = match last_shown cs with
      | Some c => notifyCard newSuit g c
      | None => g
      end.
Proof.
  induction cs as [| a rest IH]; intros g; [reflexivity |].
  cbn [fold_left last_shown]. rewrite IH.
  destruct (last_shown rest) as [c' |] eqn:Hlast.
  - apply notify_card_over. exact (last_shown_not_draw rest c' Hlast).
  - destruct (String.eqb (kind a) "DRAW") eqn:Ha; [| reflexivity].
    unfold notifyCard. rewrite Ha. reflexivity.
Qed.

(** A second pass changes nothing. *)
Lemma notify_cards_again (newSuit : option string) (cs : list MoveCard)
    (g : GameState) :
  fold_left (notifyCard newSuit) cs (fold_left (notifyCard newSuit) cs g)
  = fold_left (notifyCard newSuit) cs g.
Proof.
  rewrite (notify_cards_shown newSuit cs (fold_left (notifyCard newSuit) cs g)).
  rewrite (notify_cards_shown newSuit cs g).
  destruct (last_shown cs) as [c |] eqn:Hlast; [| reflexivity].
  apply notify_card_over. exact (last_shown_not_draw cs c Hlast).
Qed.

(** Every move message carries the state the notification ends with. *)
Lemma notify_players_state (d : Data) (reshuffled : bool)
    (ids : list string) :
  forall g : GameState,
    let shown := fold_left (notifyCard (data_newSuit d)) (data_cards d) g in
    let res := notifyPlayers env d reshuffled ids g in
    fst res = match ids with [] => g | _ :: _ => shown end
    /\ Forall (fun e =>
                 exists (playerId : string) (moveData : MoveData),
                   e = ClientSend playerId moveData
                   /\ md_gameState moveData = snapshot shown)
         (snd res).
Proof.
  induction ids as [| p ids IH]; intros g.
  - simpl. split; [reflexivity | constructor].
  - cbn [notifyPlayers].
    set (g1 := fold_left (notifyCard (data_newSuit d)) (data_cards d) g).
    assert (Hagain : fold_left (notifyCard (data_newSuit d)) (data_cards d) g1
                     = g1) by apply notify_cards_again.
    specialize (IH g1). cbv zeta in IH. rewrite !Hagain in IH.
    destruct (notifyPlayers env d reshuffled ids g1) as [g2 more].
    simpl in IH |- *. destruct IH as [Hstate Hall]. split.
    + rewrite Hstate. destruct ids; reflexivity.
    + apply Forall_app. split; [| exact Hall].
      destruct (decide (p ∈ clients env)); constructor; [| constructor].
      eexists _, _. split; reflexivity.
Qed.

Lemma notify_players_carry (d : Data) (reshuffled : bool)
    (ids : list string) (g : GameState) :
  let res := notifyPlayers env d reshuffled ids g in
  Forall (fun e =>
            exists (playerId : string) (moveData : MoveData),
              e = ClientSend playerId moveData
              /\ md_gameState moveData = snapshot (fst res))
    (snd res).
Proof.
  destruct (notify_players_state d reshuffled ids g) as [Hstate Hall].
  cbv zeta. rewrite Hstate. destruct ids as [| p ids]; [constructor |].
  exact Hall.
Qed.

(** *** The penalty count after the notification *)

(** C10.  A call of [handleMove], game and actor found, in which no
    play leaves the actor a hand of one card and no play is a 7 of the
    cutting card's suit, goes on with the game: the timeout is started
    and a move message goes to each player that [clients] knows.  Every
    message carries the state the notification ends with, whose hands
    and piles are those the play loop left and whose penalty count is
    the count the plays of the request recorded one after the other
    ([processPenaltyCard]), so a count recorded during the turn is in
    the messages.  The state stored is that state with the penalty
    count at 0: a count that is not 0 is reset after the messages are
    sent and is not in the stored state when the next player moves. *)
Theorem penalty_count_reset_after_notification :
  forall (gameStates : gmap string GameState) (d : Data)
         (gameState : GameState) (hand : list Card),
    gameStates !! data_gameId d = Some gameState ->
    players_get (data_from d) (players gameState) = Some hand ->
    leaves_one (hand ++ draws_of d) (plays_of d) = false ->
    existsb (fun a => is_cutting gameState (card a)) (plays_of d) = false ->
    let r := handleMove env gameStates d in
    let recorded :=
      count_after (currentCard gameState) (activePenaltyCount gameState)
        (plays_of d) in
    exists (notified : GameState) (sends : list Event),
      exit r = Continued
      /\ events r = StartTimeoutCall (data_gameId d) :: sends
      /\ recipients sends
         = List.filter (fun p => bool_decide (p ∈ clients env))
             (players_keys (players gameState))
      /\ Forall (fun e =>
                   exists (playerId : string) (moveData : MoveData),
                     e = ClientSend playerId moveData
                     /\ md_gameState moveData = snapshot notified)
           sends
      /\ same_piles (after_plays env gameState d) notified
      /\ activePenaltyCount notified = recorded
      /\ currentTurn notified = data_to d
      /\ store r
         = <[data_gameId d := set_activePenaltyCount 0 notified]> gameStates
      /\ (activePenaltyCount <$> store r !! data_gameId d) = Some 0.
Proof.
  intros gameStates d gameState hand Hgame Hplayer Hnowin Hnocut r recorded.
  subst r.
  pose proof (draw_phase_hand (set_waitTimeout None gameState) d hand Hplayer)
    as Hheld.
  assert (Hrecorded : activePenaltyCount (after_plays env gameState d)
                      = recorded).
  { unfold after_plays.
    rewrite (play_loop_count (data_from d) (data_newSuit d) (plays_of d)
               _ _ false Hheld), (processed_all _ _ Hnowin).
    destruct (draw_phase_count (set_waitTimeout None gameState) d)
      as [-> ->].
    reflexivity. }
  clearbody recorded.
  rewrite (handle_move_outcome env gameStates d gameState hand Hgame Hplayer).
  cbv zeta.
  pose proof (draw_phase_untouched env (set_waitTimeout None gameState) d)
    as (_ & Hcard & Hkeys1 & _).
  destruct (play_loop_course (data_from d) (data_newSuit d) (plays_of d)
              _ _ false Hheld) as (Hwon & Hflag & _ & _).
  pose proof (play_loop_untouched (data_from d) (data_newSuit d) (plays_of d)
                (fst (fst (drawPhase env (set_waitTimeout None gameState) d)))
                false) as (_ & _ & Hkeys2 & _).
  rewrite Hnowin in Hwon. rewrite (processed_all _ _ Hnowin) in Hflag.
  unfold is_cutting in Hflag, Hnocut. rewrite Hcard in Hflag.
  simpl cuttingCard in Hflag. rewrite Hnocut in Hflag.
  rewrite Hwon, Hflag. cbv iota.
  fold (after_plays env gameState d) in Hkeys2 |- *.
  set (g2 := after_plays env gameState d) in *.
  set (g4 := set_turnExpiresAt (dateNow env + PLAY_TIMEOUT_DURATION env)
               (set_currentTurn (data_to d) g2)).
  set (reshuffled := snd (drawPhase env (set_waitTimeout None gameState) d)).
  destruct (notify_players_spec env d reshuffled (players_keys (players g4))
              g4) as [Hpiles _].
  destruct (notify_players_messages env d reshuffled
              (players_keys (players g4)) g4)
    as ((_ & _ & Hturn & _) & Hrec & _).
  pose proof (notify_players_carry d reshuffled (players_keys (players g4))
                g4) as Hcarry.
  destruct (notifyPlayers env d reshuffled (players_keys (players g4)) g4)
    as [g5 sends].
  simpl in Hpiles, Hturn, Hrec, Hcarry |- *.
  assert (Hstored : (if activePenaltyCount g5 =? 0 then g5
                     else set_activePenaltyCount 0 g5)
                    = set_activePenaltyCount 0 g5).
  { destruct (Z.eqb_spec (activePenaltyCount g5) 0) as [Hzero | _];
      [| reflexivity].
    destruct g5. simpl in Hzero. subst. reflexivity. }
  rewrite Hstored. exists g5, sends.
  split; [reflexivity |]. split; [reflexivity |].
  split; [rewrite Hrec, Hkeys2, Hkeys1; reflexivity |].
  split; [exact Hcarry |].
  split; [exact Hpiles |].
  split; [rewrite <- Hrecorded; apply Hpiles |].
  split; [exact Hturn |].
  split; [reflexivity |].
  rewrite lookup_insert_eq. reflexivity.
Qed.

(** *** Plays are applied unchecked *)

(** C1, amended.  [handleMove] never asks the rules engine and rejects
    no play.  With the game and the actor found, the plays of the
    request are gone through in order, whatever [getNextAction] would
    say of them, up to and with the first that leaves the actor exactly
    one card, the first play always: their cards are appended in that
    order to the played cards the draw phase left, and every copy of
    each leaves the actor's hand (the stored hand followed by the cards
    claimed as drawn).  So in a turn without draws the played cards
    grow by the cards of those plays, and with a play in the request
    the stored state differs from the state before the call.  When the
    game is not found, an error is sent and the stored states are as
    they were. *)
Theorem plays_applied_unchecked :
  (forall (gameStates : gmap string GameState) (d : Data),
      gameStates !! data_gameId d = None ->
      store (handleMove env gameStates d) = gameStates
      /\ events (handleMove env gameStates d)
         = [WsSendError "Game not found"])
  /\ (forall (gameStates : gmap string GameState) (d : Data)
             (gameState : GameState) (hand : list Card),
      gameStates !! data_gameId d = Some gameState ->
      players_get (data_from d) (players gameState) = Some hand ->
      let held := hand ++ draws_of d in
      let applied := processed held (plays_of d) in
      exists g' : GameState,
        store (handleMove env gameStates d) !! data_gameId d = Some g'
        /\ playedCards g'
           = playedCards
               (fst (fst (drawPhase env (set_waitTimeout None gameState) d)))
             ++ map card applied
        /\ players_get (data_from d) (players g')
           = Some (hand_after held applied)
        /\ (exists todo : list MoveCard, plays_of d = applied ++ todo)
        /\ (forall (first : MoveCard) (rest : list MoveCard),
              plays_of d = first :: rest ->
              exists more : list MoveCard, applied = first :: more)
        /\ (draws_of d = [] ->
            playedCards g' = playedCards gameState ++ map card applied)
        /\ (draws_of d = [] -> plays_of d <> [] -> g' <> gameState)).
Proof.
  split.
  - intros gameStates d Hnone. unfold handleMove. rewrite Hnone. auto.
  - intros gameStates d gameState hand Hgame Hplayer held applied.
    destruct (stored_after_plays env gameStates d gameState hand Hgame
                Hplayer) as (g' & Hstore & Hp & _ & Hplayed).
    pose proof (draw_phase_hand (set_waitTimeout None gameState) d hand
                  Hplayer) as Hheld.
    destruct (play_loop_course (data_from d) (data_newSuit d) (plays_of d)
                _ _ false Hheld) as (_ & _ & Hpile & Hhand).
    fold (after_plays env gameState d) in Hpile, Hhand.
    fold held in Hpile, Hhand. fold applied in Hpile, Hhand.
    rewrite <- Hplayed in Hpile. rewrite <- Hp in Hhand.
    assert (Hfirst : forall (first : MoveCard) (rest : list MoveCard),
              plays_of d = first :: rest ->
              exists more : list MoveCard, applied = first :: more).
    { intros first rest Hplays. subst applied. rewrite Hplays.
      apply processed_first. }
    assert (Hnodraw : draws_of d = [] ->
              playedCards g' = playedCards gameState ++ map card applied).
    { intros Hnone. rewrite (draw_phase_no_draws env _ d Hnone) in Hpile.
      exact Hpile. }
    exists g'. split; [exact Hstore |]. split; [exact Hpile |].
    split; [exact Hhand |]. split; [apply processed_prefix |].
    split; [exact Hfirst |]. split; [exact Hnodraw |].
    intros Hnone Hsome Heq. specialize (Hnodraw Hnone). subst g'.
    destruct (plays_of d) as [| first rest] eqn:Hplays; [contradiction |].
    destruct (Hfirst first rest eq_refl) as [more Hmore].
    rewrite Hmore in Hnodraw. apply (f_equal length) in Hnodraw.
    rewrite length_app in Hnodraw. simpl in Hnodraw. lia.
Qed.

End TheCourseOfATurn.

(** * The further properties on the fixture *)

Section FurtherOnTheFixture.

Import HandleMove Turn Observed Course Fixture Cases.

Lemma reshuffle_keeps_the_top_witness :
  validateDrawnCards
    (deck (fst (fst (handleDeckReshuffle mockEnv lowDeckState))))
    [mkCard 6 "clubs"; mkCard 6 "hearts"]
  = true.
Proof.
  exact (reshuffle_keeps_the_top mockEnv lowDeckState
           [mkCard 6 "clubs"; mkCard 6 "hearts"] eq_refl).
Defined.

Lemma draw_phase_trusts_the_claim_witness :
  let d := request [mkMoveCard "DRAW" (mkCard 1 "w"); 
                    mkMoveCard "DRAW" (mkCard 2 "x");
                    mkMoveCard "DRAW" (mkCard 3 "y");
                    mkMoveCard "DRAW" (mkCard 4 "z")] in
  let g := mockGameState in
  let g1 := fst (fst (handleDeckReshuffle mockEnv g)) in
  let g' := fst (fst (drawPhase mockEnv g d)) in
  let n := length (draws_of d) in
  snd (fst (drawPhase mockEnv g d)) = true
  /\ snd (drawPhase mockEnv g d) = snd (fst (handleDeckReshuffle mockEnv g))
  /\ players_get (data_from d) (players g')
     = Some ([mkCard 5 "hearts"; mkCard 7 "spades"; mkCard 2 "clubs"]
             ++ draws_of d)
  /\ deck g' = take (length (deck g1) - n) (deck g1)
  /\ length (deck g') = (length (deck g1) - n)%nat
  /\ playedCards g' = playedCards g1.
Proof.
  apply (draw_phase_trusts_the_claim mockEnv mockGameState
           (request [mkMoveCard "DRAW" (mkCard 1 "w"); 
                     mkMoveCard "DRAW" (mkCard 2 "x");
                     mkMoveCard "DRAW" (mkCard 3 "y");
                     mkMoveCard "DRAW" (mkCard 4 "z")])
           [mkCard 5 "hearts"; mkCard 7 "spades"; mkCard 2 "clubs"]);
    [reflexivity | vm_compute; discriminate].
Defined.

(** Four cards claimed from a deck of three: the deck is emptied and
    the hand has four cards more. *)
Example overdraw_empties_the_deck :
  let d := request [mkMoveCard "DRAW" (mkCard 1 "w"); 
                    mkMoveCard "DRAW" (mkCard 2 "x");
                    mkMoveCard "DRAW" (mkCard 3 "y");
                    mkMoveCard "DRAW" (mkCard 4 "z")] in
  let g' := fst (fst (drawPhase mockEnv mockGameState d)) in
  deck g' = [] /\ length (hand_of "player1" g') = 7%nat.
Proof. vm_compute. auto. Qed.

Lemma turn_leaves_others_alone_witness :
  let d := request [mkMoveCard "DRAW" (mkCard 6 "clubs");
                    mkMoveCard "PLAY" (mkCard 5 "hearts")] in
  exists g' : GameState,
    store (handleMove mockEnv mockGameStates d) !! data_gameId d = Some g'
    /\ gameId g' = gameId mockGameState
    /\ cuttingCard g' = cuttingCard mockGameState
    /\ players_keys (players g') = players_keys (players mockGameState)
    /\ forall p : string,
         p <> data_from d ->
         players_get p (players g') = players_get p (players mockGameState).
Proof.
  exact (turn_leaves_others_alone mockEnv mockGameStates
           (request [mkMoveCard "DRAW" (mkCard 6 "clubs");
                     mkMoveCard "PLAY" (mkCard 5 "hearts")])
           mockGameState
           [mkCard 5 "hearts"; mkCard 7 "spades"; mkCard 2 "clubs"]
           eq_refl eq_refl).
Defined.

Lemma other_games_untouched_witness :
  let d := request [mkMoveCard "PLAY" (mkCard 5 "hearts")] in
  store (handleMove mockEnv twoGames d) !! "other-game-id"
  = twoGames !! "other-game-id".
Proof.
  apply (other_games_untouched mockEnv twoGames
           (request [mkMoveCard "PLAY" (mkCard 5 "hearts")])
           "other-game-id").
  vm_compute. discriminate.
Defined.

Lemma handoff_witness :
  let d := request [mkMoveCard "PLAY" (mkCard 5 "hearts")] in
  let r := handleMove mockEnv mockGameStates d in
  exists (g' : GameState) (sends : list Event),
    store r !! data_gameId d = Some g'
    /\ currentTurn g' = data_to d
    /\ turnExpiresAt g' = dateNow mockEnv + PLAY_TIMEOUT_DURATION mockEnv
    /\ waitTimeout g' = None
    /\ events r = StartTimeoutCall (data_gameId d) :: sends
    /\ recipients sends
       = List.filter (fun p => bool_decide (p ∈ clients mockEnv))
           (players_keys (players mockGameState))
    /\ Forall (fun e =>
                 exists (playerId : string) (moveData : MoveData),
                   e = ClientSend playerId moveData
                   /\ md_cards moveData = map moveDataCard (data_cards d)
                   /\ md_reshuffled moveData
                      = snd (drawPhase mockEnv
                               (set_waitTimeout None mockGameState) d)
                   /\ snap_currentTurn (md_gameState moveData) = data_to d)
         sends.
Proof.
  exact (handoff mockEnv mockGameStates
           (request [mkMoveCard "PLAY" (mkCard 5 "hearts")])
           mockGameState eq_refl eq_refl).
Defined.

Lemma empty_turn_passes_witness :
  let gameStates : gmap string GameState :=
    {[ "test-game-id" := pendingState ]} in
  let r := handleMove mockEnv gameStates (request []) in
  exit r = Continued
  /\ store r
     = <["test-game-id" := handed_over mockEnv (request []) pendingState]>
         gameStates.
Proof.
  exact (empty_turn_passes mockEnv {[ "test-game-id" := pendingState ]}
           (request []) pendingState
           [mkCard 5 "hearts"; mkCard 7 "spades"; mkCard 2 "clubs"]
           eq_refl eq_refl eq_refl).
Defined.

(** The three cards pending on the fixture are gone after the empty
    turn. *)
Example empty_turn_wipes_the_penalty :
  activePenaltyCount pendingState = 3
  /\ (activePenaltyCount
        <$> store (handleMove mockEnv {[ "test-game-id" := pendingState ]}
                     (request [])) !! "test-game-id")
     = Some 0.
Proof. vm_compute. auto. Qed.

Lemma cutting_card_winner_witness :
  let d := request [mkMoveCard "PLAY" (mkCard 7 "spades")] in
  let r := handleMove mockEnv mockGameStates d in
  exists (winner loser : string) (total : Z) (pre post : list (string * Z)),
    events r = [EndGameCall winner (Some loser) "CUTTING_CARD" d]
    /\ store r !! data_gameId d = Some (after_plays mockEnv mockGameState d)
    /\ hand_totals (after_plays mockEnv mockGameState d)
       = pre ++ (winner, total) :: post
    /\ Forall (fun y => total < snd y) pre
    /\ Forall (fun y => total <= snd y) post.
Proof.
  exact (cutting_card_winner mockEnv mockGameStates
           (request [mkMoveCard "PLAY" (mkCard 7 "spades")])
           mockGameState eq_refl eq_refl).
Defined.

(** With the two hands worth 14 each after the 7 of spades is played,
    the first player of the game wins. *)
Example tie_goes_to_the_first_player :
  let d := request [mkMoveCard "PLAY" (mkCard 7 "spades")] in
  hand_totals (after_plays mockEnv tiedState d)
  = [("player1", 14); ("player2", 14)]
  /\ events (handleMove mockEnv {[ "test-game-id" := tiedState ]} d)
     = [EndGameCall "player1" (Some "player2") "CUTTING_CARD" d].
Proof. vm_compute. auto. Qed.

Lemma cutting_card_alone_throws_witness :
  let gameStates : gmap string GameState :=
    {[ "test-game-id" := soloState ]} in
  let r := handleMove mockEnv gameStates
             (request [mkMoveCard "PLAY" (mkCard 7 "spades")]) in
  exit r = ThrewTypeError
  /\ length (players soloState) = 1%nat
  /\ events r = [].
Proof.
  split; [vm_compute; reflexivity |].
  exact (proj1 (cutting_card_alone_throws mockEnv
                  {[ "test-game-id" := soloState ]}
                  (request [mkMoveCard "PLAY" (mkCard 7 "spades")])
                  soloState eq_refl) eq_refl).
Defined.

Lemma cutting_card_is_a_seven_witness :
  let d := request [mkMoveCard "PLAY" (mkCard 7 "spades")] in
  let r := handleMove mockEnv mockGameStates d in
  let any :=
    existsb (fun c => is_cutting mockGameState (card c)) (plays_of d) in
  exit r = WonCuttingCard
  /\ (exit r = WonCuttingCard \/ exit r = ThrewTypeError -> any = true)
  /\ (exit r = Continued -> any = false).
Proof.
  split; [vm_compute; reflexivity |].
  exact (cutting_card_is_a_seven mockEnv mockGameStates
           (request [mkMoveCard "PLAY" (mkCard 7 "spades")])
           mockGameState eq_refl).
Defined.

Lemma penalty_count_reset_after_notification_witness :
  let d := request [mkMoveCard "PLAY" (mkCard 2 "clubs")] in
  let r := handleMove mockEnv mockGameStates d in
  let recorded :=
    count_after (currentCard mockGameState)
      (activePenaltyCount mockGameState) (plays_of d) in
  exists (notified : GameState) (sends : list Event),
    exit r = Continued
    /\ events r = StartTimeoutCall (data_gameId d) :: sends
    /\ recipients sends
       = List.filter (fun p => bool_decide (p ∈ clients mockEnv))
           (players_keys (players mockGameState))
    /\ Forall (fun e =>
                 exists (playerId : string) (moveData : MoveData),
                   e = ClientSend playerId moveData
                   /\ md_gameState moveData = snapshot notified)
         sends
    /\ same_piles (after_plays mockEnv mockGameState d) notified
    /\ activePenaltyCount notified = recorded
    /\ currentTurn notified = data_to d
    /\ store r
       = <[data_gameId d := set_activePenaltyCount 0 notified]> mockGameStates
    /\ (activePenaltyCount <$> store r !! data_gameId d) = Some 0.
Proof.
  exact (penalty_count_reset_after_notification mockEnv mockGameStates
           (request [mkMoveCard "PLAY" (mkCard 2 "clubs")])
           mockGameState
           [mkCard 5 "hearts"; mkCard 7 "spades"; mkCard 2 "clubs"]
           eq_refl eq_refl eq_refl eq_refl).
Defined.

(** On the fixture the 2 of clubs records a count of 2: both players
    are sent a message that carries it, and the stored state does not
    keep it. *)
Example penalty_recorded_then_reset :
  let d := request [mkMoveCard "PLAY" (mkCard 2 "clubs")] in
  let r := handleMove mockEnv mockGameStates d in
  count_after (currentCard mockGameState) (activePenaltyCount mockGameState)
    (plays_of d) = 2
  /\ recipients (events r) = ["player1"; "player2"]
  /\ Forall (fun e =>
               match e with
               | ClientSend _ moveData =>
                   snap_activePenaltyCount (md_gameState moveData) = 2
               | _ => True
               end) (events r)
  /\ (activePenaltyCount <$> store r !! "test-game-id") = Some 0.
Proof.
  cbv zeta. split; [vm_compute; reflexivity |].
  split; [vm_compute; reflexivity |].
  split; [vm_compute; repeat constructor | vm_compute; reflexivity].
Qed.

(** With three cards pending in the stored state, a 5 of hearts leaves
    the count as it is: the messages carry the three cards, and the
    stored state has none of them afterwards. *)
Example pending_count_sent_then_reset :
  let d := request [mkMoveCard "PLAY" (mkCard 5 "hearts")] in
  let r := handleMove mockEnv {[ "test-game-id" := pendingState ]} d in
  activePenaltyCount pendingState = 3
  /\ recipients (events r) = ["player1"; "player2"]
  /\ Forall (fun e =>
               match e with
               | ClientSend _ moveData =>
                   snap_activePenaltyCount (md_gameState moveData) = 3
               | _ => True
               end) (events r)
  /\ (activePenaltyCount <$> store r !! "test-game-id") = Some 0.
Proof.
  cbv zeta. split; [vm_compute; reflexivity |].
  split; [vm_compute; reflexivity |].
  split; [vm_compute; repeat constructor | vm_compute; reflexivity].
Qed.

Lemma plays_applied_unchecked_witness :
  let d := request [mkMoveCard "DRAW" (mkCard 6 "clubs");
                    mkMoveCard "PLAY" (mkCard 5 "hearts");
                    mkMoveCard "PLAY" (mkCard 2 "clubs")] in
  let held := [mkCard 5 "hearts"; mkCard 7 "spades"; mkCard 2 "clubs"]
              ++ draws_of d in
  let applied := processed held (plays_of d) in
  exists g' : GameState,
    store (handleMove mockEnv mockGameStates d) !! data_gameId d = Some g'
    /\ playedCards g'
       = playedCards
           (fst (fst (drawPhase mockEnv (set_waitTimeout None mockGameState)
                        d)))
         ++ map card applied
    /\ players_get (data_from d) (players g')
       = Some (hand_after held applied)
    /\ (exists todo : list MoveCard, plays_of d = applied ++ todo)
    /\ (forall (first : MoveCard) (rest : list MoveCard),
          plays_of d = first :: rest ->
          exists more : list MoveCard, applied = first :: more)
    /\ (draws_of d = [] ->
        playedCards g' = playedCards mockGameState ++ map card applied)
    /\ (draws_of d = [] -> plays_of d <> [] -> g' <> mockGameState).
Proof.
  exact (proj2 (plays_applied_unchecked mockEnv) mockGameStates
           (request [mkMoveCard "DRAW" (mkCard 6 "clubs");
                     mkMoveCard "PLAY" (mkCard 5 "hearts");
                     mkMoveCard "PLAY" (mkCard 2 "clubs")])
           mockGameState
           [mkCard 5 "hearts"; mkCard 7 "spades"; mkCard 2 "clubs"]
           eq_refl eq_refl).
Defined.

(** A draw and two plays on the fixture.  The rules engine rejects the
    5 of hearts on the 8 of diamonds and the 2 of clubs on the 5 of
    hearts; the handler goes through both, in order. *)
Example two_invalid_plays_applied :
  let d := request [mkMoveCard "DRAW" (mkCard 6 "clubs");
                    mkMoveCard "PLAY" (mkCard 5 "hearts");
                    mkMoveCard "PLAY" (mkCard 2 "clubs")] in
  let r := handleMove mockEnv mockGameStates d in
  Rules.valid (Rules.getNextAction (Some (mkCard 8 "diamonds"))
                 (mkCard 5 "hearts") false None 0 0) = false
  /\ Rules.valid (Rules.getNextAction (Some (mkCard 5 "hearts"))
                    (mkCard 2 "clubs") false None 0 0) = false
  /\ processed [mkCard 5 "hearts"; mkCard 7 "spades"; mkCard 2 "clubs";
                mkCard 6 "clubs"] (plays_of d)
     = plays_of d
  /\ exit r = Continued
  /\ (playedCards <$> store r !! "test-game-id")
     = Some [mkCard 8 "diamonds"; mkCard 5 "hearts"; mkCard 2 "clubs"]
  /\ (hand_of "player1" <$> store r !! "test-game-id")
     = Some [mkCard 7 "spades"; mkCard 6 "clubs"].
Proof. vm_compute. auto 10. Qed.

(** From a hand of two cards the first play leaves one card, and the
    second play is not gone through. *)
Example play_after_the_last_card_but_one :
  let plays := [mkMoveCard "PLAY" (mkCard 5 "hearts");
                mkMoveCard "PLAY" (mkCard 9 "clubs")] in
  let r := handleMove mockEnv {[ "test-game-id" := twoCardState ]}
             (request plays) in
  processed [mkCard 5 "hearts"; mkCard 9 "clubs"] plays
  = [mkMoveCard "PLAY" (mkCard 5 "hearts")]
  /\ exit r = WonNoCards
  /\ (playedCards <$> store r !! "test-game-id")
     = Some [mkCard 8 "diamonds"; mkCard 5 "hearts"]
  /\ (hand_of "player1" <$> store r !! "test-game-id")
     = Some [mkCard 9 "clubs"].
Proof. vm_compute. auto. Qed.

End FurtherOnTheFixture.
